(** * The room/session state machine of the DKA game server

    A shallow embedding of the socket.io event handlers of the server
    ([join_room], [toggle_ready], [kick_player], [update_player],
    [disconnect], the helper [checkAndStartGame] and the [setTimeout]
    reset callback), followed by the properties of the room life cycle
    LOBBY -> PLAYING -> GAME_OVER -> LOBBY.

    Modelling conventions.
    - The process-wide object [rooms] is a finite map from room ids to
      rooms.  Room ids are assumed not to collide with the property
      names that a JavaScript object inherits from its prototype.
    - [Date.now()] is read at most once per handler run; its value is
      the argument [now] of the handler.
    - [socket.id] of the connection a handler belongs to is the
      argument [sid].
    - Every [emit] is recorded, in program order, as an [Event] holding
      the addressee and a snapshot of the payload.
    - [setTimeout] appends a [Timer] to the list of pending timers; the
      callback body is [reset_action]. *)

From stdpp Require Import gmap strings list fin_maps pretty.
From Stdlib Require Import ZArith.

Local Open Scope Z_scope.
Local Open Scope string_scope.
Local Open Scope list_scope.

(** ** Data model *)

Module Player.
Record t := mk {
  id : string;
  name : string;
  isReady : bool;
  score : Z;
  status : string  (* 'ALIVE', 'DEAD', 'FINISHED'; written as sent by the client *)
}.
End Player.

Inductive RoomStatus := LOBBY | PLAYING | GAME_OVER.

#[global] Instance RoomStatus_eq_dec : EqDecision RoomStatus.
Proof. solve_decision. Defined.

Module Room.
Record t := mk {
  players : list Player.t;
  status : RoomStatus
}.
End Room.

(** A pending [setTimeout]: the instant it is due and the [roomId]
    captured by the callback. *)
Record Timer := mkTimer { due : Z; timer_room : string }.

(** Outbound messages.  [error_msg] is [socket.emit] (requester only);
    for the others the first argument is the argument of [io.to]. *)
Inductive Event :=
| error_msg (to : string) (msg : string)
| room_update (to : string) (players : list Player.t)
| start_game (to : string) (startTime : Z)
| player_updated (to : string) (player : Player.t)
| force_game_over (to : string) (players : list Player.t) (resetTime : Z)
| kicked (to : string).

Record State := mkState {
  rooms : gmap string Room.t;
  timers : list Timer
}.

Definition init : State := mkState ∅ [].

(** ** SERVER_CONFIG *)

Definition REQUIRED_PLAYERS : nat := 2.
Definition LEADERBOARD_DURATION : Z := 10000.

(** ** Small helpers for the JavaScript idioms used by the handlers *)

(** [players.find(p => p.id === sid)] and [players.findIndex(...)]:
    first index and element whose id is [sid]. *)
Definition find_player (sid : string) (ps : list Player.t) : option (nat * Player.t) :=
  list_find (λ p, Player.id p = sid) ps.

(** [p => p.status === 'DEAD' || p.status === 'FINISHED'] *)
Definition is_done (p : Player.t) : bool :=
  bool_decide (Player.status p = "DEAD") || bool_decide (Player.status p = "FINISHED").

(** [name || `Agent ${socket.id.substr(0,4)}`]: an absent or empty name
    is falsy. *)
Definition display_name (name : option string) (sid : string) : string :=
  match name with
  | Some (String c s) => String c s
  | _ => "Agent " +:+ String.substring 0 4 sid
  end.

Definition with_players (ps : list Player.t) (r : Room.t) : Room.t :=
  Room.mk ps (Room.status r).

Definition with_status (s : RoomStatus) (r : Room.t) : Room.t :=
  Room.mk (Room.players r) s.

Definition with_rooms (rs : gmap string Room.t) (st : State) : State :=
  mkState rs (timers st).

(** ** checkAndStartGame *)

Definition checkAndStartGame (now : Z) (roomId : string)
    (rs : gmap string Room.t) : gmap string Room.t * list Event :=
  match rs !! roomId with
  | None => (rs, [])
  | Some room =>
      let playerCount := length (Room.players room) in
      let allReady := forallb Player.isReady (Room.players room) in
      if bool_decide (playerCount = REQUIRED_PLAYERS) && allReady then
        if bool_decide (Room.status room ≠ PLAYING) then
          let startTime := now + 3000 in
          (<[roomId := with_status PLAYING room]> rs, [start_game roomId startTime])
        else (rs, [])
      else (rs, [])
  end.

(** ** join_room *)

Definition newPlayer (sid : string) (name : option string) : Player.t :=
  Player.mk sid (display_name name sid) false 0 "ALIVE".

Definition join_room (now : Z) (sid roomId : string) (name : option string)
    (st : State) : State * list Event :=
  let room :=
    match rooms st !! roomId with
    | Some r => r
    | None => Room.mk [] LOBBY
    end in
  let rs := <[roomId := room]> (rooms st) in
  if bool_decide (Room.status room = PLAYING) then
    (with_rooms rs st,
     [error_msg sid "Mission already in progress. Access Denied."])
  else if bool_decide (REQUIRED_PLAYERS ≤ length (Room.players room))%nat then
    (with_rooms rs st,
     [error_msg sid ("Team is full (Max " +:+ pretty REQUIRED_PLAYERS +:+ " Agents).")])
  else
    let ps := Room.players room ++ [newPlayer sid name] in
    let rs := <[roomId := with_players ps room]> rs in
    let '(rs, evs) := checkAndStartGame now roomId rs in
    (with_rooms rs st, room_update roomId ps :: evs).

(** ** toggle_ready *)

Definition toggle (p : Player.t) : Player.t :=
  Player.mk (Player.id p) (Player.name p) (negb (Player.isReady p))
            (Player.score p) (Player.status p).

Definition toggle_ready (now : Z) (sid roomId : string)
    (st : State) : State * list Event :=
  match rooms st !! roomId with
  | None => (st, [])
  | Some room =>
      match find_player sid (Room.players room) with
      | None => (st, [])
      | Some (i, player) =>
          let ps := <[i := toggle player]> (Room.players room) in
          let rs := <[roomId := with_players ps room]> (rooms st) in
          let '(rs, evs) := checkAndStartGame now roomId rs in
          (with_rooms rs st, room_update roomId ps :: evs)
      end
  end.

(** ** kick_player *)

Definition kick_player (sid roomId targetId : string)
    (st : State) : State * list Event :=
  match rooms st !! roomId with
  | None => (st, [])
  | Some room =>
      match Room.players room with
      | captain :: _ =>
          if bool_decide (Player.id captain = sid) then
            if bool_decide (targetId = sid) then (st, [])
            else
              match find_player targetId (Room.players room) with
              | Some (targetIndex, _) =>
                  let ps := delete targetIndex (Room.players room) in
                  (with_rooms (<[roomId := with_players ps room]> (rooms st)) st,
                   [kicked targetId; room_update roomId ps])
              | None => (st, [])
              end
          else (st, [])
      | [] => (st, [])
      end
  end.

(** ** update_player and the reset callback *)

Definition set_state (score : Z) (status : string) (p : Player.t) : Player.t :=
  Player.mk (Player.id p) (Player.name p) (Player.isReady p) score status.

Definition update_player (now : Z) (sid roomId : string) (score : Z)
    (status : string) (st : State) : State * list Event :=
  match rooms st !! roomId with
  | None => (st, [])
  | Some room =>
      match find_player sid (Room.players room) with
      | None => (st, [])
      | Some (i, player) =>
          let player := set_state score status player in
          let ps := <[i := player]> (Room.players room) in
          let allDone := forallb is_done ps in
          if allDone && bool_decide (Room.status room = PLAYING) then
            let resetTime := now + LEADERBOARD_DURATION in
            (mkState (<[roomId := Room.mk ps GAME_OVER]> (rooms st))
                     (timers st ++ [mkTimer (now + LEADERBOARD_DURATION) roomId]),
             [player_updated roomId player; force_game_over roomId ps resetTime])
          else
            (with_rooms (<[roomId := with_players ps room]> (rooms st)) st,
             [player_updated roomId player])
      end
  end.

Definition reset_captain (p : Player.t) : Player.t :=
  Player.mk (Player.id p) (Player.name p) false 0 "ALIVE".

(** The body of the callback handed to [setTimeout]. *)
Definition reset_action (roomId : string) (st : State) : State * list Event :=
  match rooms st !! roomId with
  | None => (st, [])
  | Some currentRoom =>
      if bool_decide (Room.status currentRoom ≠ GAME_OVER) then (st, [])
      else
        match Room.players currentRoom with
        | captain :: others =>
            let captain := reset_captain captain in
            (with_rooms (<[roomId := Room.mk [captain] LOBBY]> (rooms st)) st,
             map (λ p, kicked (Player.id p)) others ++ [room_update roomId [captain]])
        | [] => (with_rooms (delete roomId (rooms st)) st, [])
        end
  end.

(** ** disconnect *)

(** One turn of the [for (const roomId in rooms)] loop. *)
Definition disconnect_room (sid : string)
    (acc : gmap string Room.t * list Event) (roomId : string)
    : gmap string Room.t * list Event :=
  match acc.1 !! roomId with
  | None => acc
  | Some room =>
      match find_player sid (Room.players room) with
      | Some (index, _) =>
          let ps := delete index (Room.players room) in
          if bool_decide (length ps = 0%nat) then (delete roomId acc.1, acc.2)
          else (<[roomId := with_players ps room]> acc.1,
                acc.2 ++ [room_update roomId ps])
      | None => acc
      end
  end.

(** The loop visits the keys present when it starts; the order of the
    visit only decides how the broadcasts of different rooms interleave,
    and is taken here to be the enumeration order of the map. *)
Definition disconnect (sid : string) (st : State) : State * list Event :=
  let '(rs, evs) :=
    foldl (disconnect_room sid) (rooms st, []) (map_to_list (rooms st)).*1 in
  (with_rooms rs st, evs).

(** ** The server as a transition system *)

Inductive Input :=
| JoinRoom (sid roomId : string) (name : option string)
| ToggleReady (sid roomId : string)
| KickPlayer (sid roomId targetId : string)
| UpdatePlayer (sid roomId : string) (score : Z) (status : string)
| Disconnect (sid : string)
| TimerFires (n : nat).

(** A pending timer fires once it is due: it leaves the pending list and
    its callback runs. *)
Definition fire (now : Z) (n : nat) (st : State) : State * list Event :=
  match timers st !! n with
  | Some t =>
      if bool_decide (due t ≤ now)%Z then
        reset_action (timer_room t) (mkState (rooms st) (delete n (timers st)))
      else (st, [])
  | None => (st, [])
  end.

Definition handle (now : Z) (inp : Input) (st : State) : State * list Event :=
  match inp with
  | JoinRoom sid roomId name => join_room now sid roomId name st
  | ToggleReady sid roomId => toggle_ready now sid roomId st
  | KickPlayer sid roomId targetId => kick_player sid roomId targetId st
  | UpdatePlayer sid roomId score status => update_player now sid roomId score status st
  | Disconnect sid => disconnect sid st
  | TimerFires n => fire now n st
  end.

Inductive reachable : State → Prop :=
| reachable_init : reachable init
| reachable_step st now inp :
    reachable st → reachable (handle now inp st).1.

(** Running a whole trace of timestamped inputs, collecting the events. *)
Fixpoint run (trace : list (Z * Input)) (st : State) : State * list Event :=
  match trace with
  | [] => (st, [])
  | (now, inp) :: rest =>
      let '(st1, evs1) := handle now inp st in
      let '(st2, evs2) := run rest st1 in
      (st2, evs1 ++ evs2)
  end.

(** The ids of the players of a room, in list order. *)
Definition ids (r : Room.t) : list string := Player.id <$> Room.players r.

(** ** Vocabulary of the properties *)

(** The condition under which the check starts the game. *)
Definition start_condition (room : Room.t) : Prop :=
  length (Room.players room) = REQUIRED_PLAYERS ∧
  Forall (λ p, Player.isReady p = true) (Room.players room) ∧
  Room.status room ≠ PLAYING.

(** [rooms[roomId]] once [join_room] has created the room if need be. *)
Definition roomOrNew (roomId : string) (st : State) : Room.t :=
  default (Room.mk [] LOBBY) (rooms st !! roomId).

(** What one turn of the loop of [disconnect] makes of a room: [None]
    when the room is deleted. *)
Definition leave (sid : string) (room : Room.t) : option Room.t :=
  match find_player sid (Room.players room) with
  | Some (index, _) =>
      let ps := delete index (Room.players room) in
      if bool_decide (length ps = 0%nat) then None
      else Some (with_players ps room)
  | None => Some room
  end.

(** What one turn of the loop of [disconnect] emits for a room. *)
Definition leave_events (sid roomId : string) (room : Room.t) : list Event :=
  match find_player sid (Room.players room) with
  | Some (index, _) =>
      let ps := delete index (Room.players room) in
      if bool_decide (length ps = 0%nat) then []
      else [room_update roomId ps]
  | None => []
  end.

Definition is_join (inp : Input) : bool :=
  match inp with JoinRoom _ _ _ => true | _ => false end.

Definition bounded (st : State) : Prop :=
  ∀ k r, rooms st !! k = Some r →
         (length (Room.players r) ≤ REQUIRED_PLAYERS)%nat.

Definition unique_ids (st : State) : Prop :=
  ∀ k r, rooms st !! k = Some r → NoDup (ids r).

(** A join is fresh when the connection is not yet a player of the room
    it asks for. *)
Definition fresh_join (inp : Input) (st : State) : Prop :=
  match inp with
  | JoinRoom sid roomId _ => sid ∉ ids (roomOrNew roomId st)
  | _ => True
  end.

Inductive reachable_fresh : State → Prop :=
| reachable_fresh_init : reachable_fresh init
| reachable_fresh_step st now inp :
    reachable_fresh st → fresh_join inp st →
    reachable_fresh (handle now inp st).1.

(** The scenario of two agents: both join room R, both get ready, both
    report the end of their mission. *)
Definition scenario_joined : list (Z * Input) :=
  [(0, JoinRoom "a" "R" None); (1, JoinRoom "b" "R" (Some "Bob"))].

Definition scenario_started : list (Z * Input) :=
  scenario_joined ++ [(2, ToggleReady "a" "R"); (3, ToggleReady "b" "R")].

Definition scenario_over : list (Z * Input) :=
  scenario_started ++
  [(4, UpdatePlayer "a" "R" 5 "FINISHED"); (5, UpdatePlayer "b" "R" 7 "DEAD")].

(** The state a trace leads to from the empty registry. *)
Definition state_after (trace : list (Z * Input)) : State := (run trace init).1.

Definition agent (sid name : string) (ready : bool) (score : Z) (status : string)
    : Player.t := Player.mk sid name ready score status.

(** The requester is the captain: the player at index 0 carries its id. *)
Definition is_captain (sid : string) (room : Room.t) : Prop :=
  ∃ captain rest, Room.players room = captain :: rest ∧ Player.id captain = sid.

(** A kick that succeeds: an entry carrying the target id leaves the
    player list of the room, kicked is sent to the target and the
    shortened list is broadcast to the room. *)
Definition kick_succeeds (sid roomId targetId : string) (st : State) : Prop :=
  ∃ room i p,
    rooms st !! roomId = Some room ∧
    Room.players room !! i = Some p ∧ Player.id p = targetId ∧
    let res := kick_player sid roomId targetId st in
    rooms res.1 !! roomId =
      Some (with_players (delete i (Room.players room)) room) ∧
    kicked targetId ∈ res.2 ∧
    room_update roomId (delete i (Room.players room)) ∈ res.2.

(** Every room of the registry has a player. *)
Definition populated (st : State) : Prop :=
  ∀ k r, rooms st !! k = Some r → Room.players r ≠ [].

(** Every room in GAME_OVER has a reset timer pending for it. *)
Definition reset_pending (st : State) : Prop :=
  ∀ k r, rooms st !! k = Some r → Room.status r = GAME_OVER →
         ∃ t, t ∈ timers st ∧ timer_room t = k.

(** The room an input is about: the [roomId] of its payload, or the one
    captured by the timer that fires; [disconnect] names no room. *)
Definition input_room (st : State) (inp : Input) : option string :=
  match inp with
  | JoinRoom _ roomId _ | ToggleReady _ roomId | KickPlayer _ roomId _
  | UpdatePlayer _ roomId _ _ => Some roomId
  | Disconnect _ => None
  | TimerFires n => timer_room <$> timers st !! n
  end.

(** The moves of the status of a room that the handlers are seen to
    make: a stay, a start from LOBBY or GAME_OVER, the end of a game and
    the reset. *)
Definition status_step (a b : RoomStatus) : bool :=
  match a, b with
  | LOBBY, LOBBY | PLAYING, PLAYING | GAME_OVER, GAME_OVER => true
  | LOBBY, PLAYING | GAME_OVER, PLAYING => true
  | PLAYING, GAME_OVER => true
  | GAME_OVER, LOBBY => true
  | LOBBY, GAME_OVER | PLAYING, LOBBY => false
  end.

(** ** Basic facts *)

Lemma with_rooms_id st : with_rooms (rooms st) st = st.
Proof. by destruct st. Qed.

Lemma with_players_id r : with_players (Room.players r) r = r.
Proof. by destruct r. Qed.

Lemma find_player_Some sid ps i p :
  find_player sid ps = Some (i, p) → ps !! i = Some p ∧ Player.id p = sid.
Proof. unfold find_player. by intros (? & ? & _)%list_find_Some. Qed.

Lemma find_player_is_Some sid ps :
  is_Some (find_player sid ps) ↔ ∃ p, p ∈ ps ∧ Player.id p = sid.
Proof.
  split.
  - intros [[i p] [Hl Hid]%find_player_Some].
    exists p. split; [by eapply list_elem_of_lookup_2 | done].
  - intros (p & Hp & Hid). by eapply list_find_elem_of.
Qed.

Lemma forallb_isReady ps :
  forallb Player.isReady ps = true ↔ Forall (λ p, Player.isReady p = true) ps.
Proof.
  rewrite <-Is_true_true, forallb_True. apply Forall_proper; [|done].
  intros p. apply Is_true_true.
Qed.

Lemma is_done_spec p :
  is_done p = true ↔ Player.status p = "DEAD" ∨ Player.status p = "FINISHED".
Proof.
  unfold is_done. rewrite orb_true_iff, !bool_decide_eq_true. done.
Qed.

Lemma forallb_is_done ps :
  forallb is_done ps = true ↔
  Forall (λ p, Player.status p = "DEAD" ∨ Player.status p = "FINISHED") ps.
Proof.
  rewrite <-Is_true_true, forallb_True. apply Forall_proper; [|done].
  intros p. rewrite Is_true_true. apply is_done_spec.
Qed.

Lemma NoDup_delete_not_elem {A} (l : list A) i x :
  NoDup l → l !! i = Some x → x ∉ delete i l.
Proof.
  intros Hnd Hi. rewrite <-(take_drop_middle l i x Hi) in Hnd.
  apply NoDup_app in Hnd as (_ & Hl & [Hr _]%NoDup_cons).
  rewrite delete_take_drop, elem_of_app. intros [Hin|Hin]; [|done].
  apply (Hl x Hin), list_elem_of_here.
Qed.

(** ** The scenario, run *)

Example scenario_over_state :
  state_after scenario_over =
    mkState {["R" := Room.mk [agent "a" "Agent a" true 5 "FINISHED";
                              agent "b" "Bob" true 7 "DEAD"] GAME_OVER]}
            [mkTimer 10005 "R"].
Proof. vm_compute. reflexivity. Qed.

Example scenario_started_events :
  (run scenario_started init).2 =
    [room_update "R" [agent "a" "Agent a" false 0 "ALIVE"];
     room_update "R" [agent "a" "Agent a" false 0 "ALIVE";
                      agent "b" "Bob" false 0 "ALIVE"];
     room_update "R" [agent "a" "Agent a" true 0 "ALIVE";
                      agent "b" "Bob" false 0 "ALIVE"];
     room_update "R" [agent "a" "Agent a" true 0 "ALIVE";
                      agent "b" "Bob" true 0 "ALIVE"];
     start_game "R" 3003].
Proof. vm_compute. reflexivity. Qed.

Example scenario_reset :
  fire 10005 0 (state_after scenario_over) =
    (mkState {["R" := Room.mk [agent "a" "Agent a" false 0 "ALIVE"] LOBBY]} [],
     [kicked "b"; room_update "R" [agent "a" "Agent a" false 0 "ALIVE"]]).
Proof. vm_compute. reflexivity. Qed.

Example team_full_message :
  join_room 9 "c" "R" None (state_after scenario_joined) =
    (state_after scenario_joined,
     [error_msg "c" "Team is full (Max 2 Agents)."]).
Proof. vm_compute. reflexivity. Qed.

(** ** Auto-start *)

Lemma checkAndStartGame_start now roomId rs room :
  rs !! roomId = Some room → start_condition room →
  checkAndStartGame now roomId rs =
    (<[roomId := Room.mk (Room.players room) PLAYING]> rs,
     [start_game roomId (now + 3000)]).
Proof.
  intros Hl (Hn & Hr & Hs). unfold checkAndStartGame. rewrite Hl. cbn zeta.
  rewrite (bool_decide_eq_true_2 _ Hn), (proj2 (forallb_isReady _) Hr).
  by rewrite (bool_decide_eq_true_2 _ Hs).
Qed.

Lemma checkAndStartGame_idle now roomId rs room :
  rs !! roomId = Some room → ¬ start_condition room →
  checkAndStartGame now roomId rs = (rs, []).
Proof.
  intros Hl Hn. unfold checkAndStartGame. rewrite Hl. cbn zeta.
  destruct (bool_decide _ && _) eqn:Hc; [|done].
  apply andb_true_iff in Hc as [Hc1%bool_decide_eq_true Hc2%forallb_isReady].
  destruct (bool_decide (Room.status room ≠ PLAYING)) eqn:Hs; [|done].
  apply bool_decide_eq_true in Hs. by destruct Hn.
Qed.

(** Whatever the check does, it leaves every player list alone. *)
Lemma checkAndStartGame_players now roomId rs k r' :
  (checkAndStartGame now roomId rs).1 !! k = Some r' →
  ∃ r, rs !! k = Some r ∧ Room.players r' = Room.players r.
Proof.
  unfold checkAndStartGame. destruct (rs !! roomId) as [room|] eqn:Hl; [|eauto].
  cbn zeta. destruct (bool_decide _ && _); [|eauto].
  case_bool_decide; [|eauto]. cbn.
  destruct (decide (roomId = k)) as [->|Hne].
  - rewrite lookup_insert_eq. intros [= <-]. eauto.
  - rewrite lookup_insert_ne by done. eauto.
Qed.

Lemma checkAndStartGame_unready now roomId rs room :
  rs !! roomId = Some room →
  (∃ p, p ∈ Room.players room ∧ Player.isReady p = false) →
  checkAndStartGame now roomId rs = (rs, []).
Proof.
  intros Hl (p & Hp & Hr). apply (checkAndStartGame_idle _ _ _ _ Hl).
  intros (_ & Hall & _). rewrite Forall_forall in Hall.
  specialize (Hall p Hp). congruence.
Qed.

(** ** Joining *)

Lemma join_room_accept now sid roomId name st :
  let room := roomOrNew roomId st in
  Room.status room ≠ PLAYING →
  (length (Room.players room) < REQUIRED_PLAYERS)%nat →
  let ps := Room.players room ++ [newPlayer sid name] in
  join_room now sid roomId name st =
    (with_rooms (<[roomId := with_players ps room]> (rooms st)) st,
     [room_update roomId ps]).
Proof.
  intros room Hs Hlen ps. unfold join_room.
  assert (match rooms st !! roomId with
          | Some r => r | None => Room.mk [] LOBBY end = room) as ->.
  { unfold room, roomOrNew. by destruct (rooms st !! roomId). }
  rewrite (bool_decide_eq_false_2 _ Hs).
  rewrite bool_decide_eq_false_2 by lia.
  rewrite insert_insert_eq. fold ps.
  erewrite checkAndStartGame_unready; [done | apply lookup_insert_eq |].
  exists (newPlayer sid name). split; [|done].
  cbn. apply elem_of_app. right. by apply list_elem_of_singleton.
Qed.

Lemma join_room_reject now sid roomId name st room :
  rooms st !! roomId = Some room →
  Room.status room = PLAYING ∨ (REQUIRED_PLAYERS ≤ length (Room.players room))%nat →
  ∃ msg, join_room now sid roomId name st = (st, [error_msg sid msg]).
Proof.
  intros Hl Hc. unfold join_room. rewrite Hl.
  rewrite (insert_id _ _ _ Hl), with_rooms_id.
  case_bool_decide; [eauto|]. case_bool_decide; [eauto|].
  destruct Hc; [done | lia].
Qed.

(** What a room of the registry looks like after a join: untouched, or
    the target room, which was not full, with the newcomer appended. *)
Lemma join_room_lookup now sid roomId name st k r' :
  rooms (join_room now sid roomId name st).1 !! k = Some r' →
  rooms st !! k = Some r' ∨
  (k = roomId ∧
   (length (Room.players (roomOrNew roomId st)) < REQUIRED_PLAYERS)%nat ∧
   Room.players r' = Room.players (roomOrNew roomId st) ++ [newPlayer sid name]).
Proof.
  destruct (decide (Room.status (roomOrNew roomId st) = PLAYING)) as [Hs|Hs];
    [|destruct (decide (REQUIRED_PLAYERS ≤
         length (Room.players (roomOrNew roomId st)))%nat) as [Hf|Hf]].
  - unfold roomOrNew in Hs.
    destruct (rooms st !! roomId) as [room|] eqn:Hl; [|done].
    destruct (join_room_reject now sid roomId name st room Hl) as [msg ->];
      auto.
  - unfold roomOrNew in Hf.
    destruct (rooms st !! roomId) as [room|] eqn:Hl; [|cbn in Hf; unfold REQUIRED_PLAYERS in Hf; lia].
    destruct (join_room_reject now sid roomId name st room Hl) as [msg ->];
      auto.
  - rewrite join_room_accept by (done || lia). cbn.
    destruct (decide (roomId = k)) as [->|Hne].
    + rewrite lookup_insert_eq. intros [= <-]. right. split_and!; [done|lia|done].
    + rewrite lookup_insert_ne by done. auto.
Qed.

(** ** Handlers that rewrite one player in place *)

Lemma ids_insert_same (ps : list Player.t) i p p' :
  ps !! i = Some p → Player.id p' = Player.id p →
  Player.id <$> <[i := p']> ps = Player.id <$> ps.
Proof.
  intros Hl Hid. rewrite list_fmap_insert. apply list_insert_id.
  by rewrite list_lookup_fmap, Hl, Hid.
Qed.

Lemma toggle_ready_lookup now sid roomId st k r' :
  rooms (toggle_ready now sid roomId st).1 !! k = Some r' →
  ∃ r, rooms st !! k = Some r ∧ ids r' = ids r.
Proof.
  unfold toggle_ready.
  destruct (rooms st !! roomId) as [room|] eqn:Hl; [|eauto].
  destruct (find_player sid (Room.players room)) as [[i p]|] eqn:Hf; [|eauto].
  apply find_player_Some in Hf as [Hi _].
  destruct (checkAndStartGame _ _ _) as [rs evs] eqn:Hc. cbn. intros Hk.
  assert ((checkAndStartGame now roomId
     (<[roomId := with_players (<[i := toggle p]> (Room.players room)) room]>
        (rooms st))).1 !! k = Some r') as Hk' by (by rewrite Hc).
  apply checkAndStartGame_players in Hk' as (r & Hr & Hps).
  unfold ids. rewrite Hps.
  destruct (decide (roomId = k)) as [->|Hne].
  - rewrite lookup_insert_eq in Hr. injection Hr as <-. exists room.
    split; [done|]. cbn. by eapply ids_insert_same.
  - rewrite lookup_insert_ne in Hr by done. eauto.
Qed.

Lemma update_player_lookup now sid roomId score status st k r' :
  rooms (update_player now sid roomId score status st).1 !! k = Some r' →
  ∃ r, rooms st !! k = Some r ∧ ids r' = ids r.
Proof.
  unfold update_player.
  destruct (rooms st !! roomId) as [room|] eqn:Hl; [|eauto].
  destruct (find_player sid (Room.players room)) as [[i p]|] eqn:Hf; [|eauto].
  apply find_player_Some in Hf as [Hi _]. cbn zeta.
  destruct (_ && _); cbn;
    (destruct (decide (roomId = k)) as [->|Hne];
     [ rewrite lookup_insert_eq; intros [= <-]; exists room;
       split; [done|]; unfold ids; cbn; by eapply ids_insert_same
     | rewrite lookup_insert_ne by done; eauto ]).
Qed.

(** ** Handlers that remove players *)

Lemma kick_player_lookup sid roomId targetId st k r' :
  rooms (kick_player sid roomId targetId st).1 !! k = Some r' →
  ∃ r, rooms st !! k = Some r ∧ ids r' `sublist_of` ids r.
Proof.
  unfold kick_player.
  destruct (rooms st !! roomId) as [room|] eqn:Hl; [|eauto].
  destruct (Room.players room) as [|captain rest] eqn:Hps; [eauto|].
  case_bool_decide; [|eauto]. case_bool_decide; [eauto|].
  destruct (find_player targetId (captain :: rest)) as [[i p]|]; [|eauto].
  cbn. destruct (decide (roomId = k)) as [->|Hne].
  - rewrite lookup_insert_eq. intros [= <-]. exists room. split; [done|].
    unfold ids. rewrite Hps. cbn [with_players Room.players].
    rewrite list_fmap_delete. apply sublist_delete.
  - rewrite lookup_insert_ne by done. eauto.
Qed.

Lemma reset_action_lookup roomId st k r' :
  rooms (reset_action roomId st).1 !! k = Some r' →
  ∃ r, rooms st !! k = Some r ∧ ids r' `sublist_of` ids r.
Proof.
  unfold reset_action.
  destruct (rooms st !! roomId) as [room|] eqn:Hl; [|eauto].
  case_bool_decide; [eauto|].
  destruct (Room.players room) as [|captain others] eqn:Hps; cbn.
  - destruct (decide (roomId = k)) as [->|Hne].
    + by rewrite lookup_delete_eq.
    + rewrite lookup_delete_ne by done. eauto.
  - destruct (decide (roomId = k)) as [->|Hne].
    + rewrite lookup_insert_eq. intros [= <-]. exists room. split; [done|].
      unfold ids. rewrite Hps. cbn. apply sublist_skip, sublist_nil_l.
    + rewrite lookup_insert_ne by done. eauto.
Qed.

Lemma fire_lookup now n st k r' :
  rooms (fire now n st).1 !! k = Some r' →
  ∃ r, rooms st !! k = Some r ∧ ids r' `sublist_of` ids r.
Proof.
  unfold fire. destruct (timers st !! n) as [t|]; [|eauto].
  case_bool_decide; [|eauto].
  intros Hk. by apply reset_action_lookup in Hk.
Qed.

(** ** Disconnecting *)

Lemma disconnect_room_lookup sid acc roomId k :
  (disconnect_room sid acc roomId).1 !! k =
  if decide (k = roomId) then acc.1 !! roomId ≫= leave sid else acc.1 !! k.
Proof.
  unfold disconnect_room, leave.
  destruct (acc.1 !! roomId) as [room|] eqn:Hl; cbn.
  - destruct (find_player sid (Room.players room)) as [[i p]|]; cbn.
    + case_bool_decide; cbn; case_decide; subst;
        by rewrite ?lookup_delete_eq, ?lookup_delete_ne,
                   ?lookup_insert_eq, ?lookup_insert_ne by done.
    + case_decide; by subst.
  - case_decide; by subst.
Qed.

Lemma disconnect_room_events sid acc roomId :
  (disconnect_room sid acc roomId).2 =
  acc.2 ++ from_option (leave_events sid roomId) [] (acc.1 !! roomId).
Proof.
  unfold disconnect_room, leave_events.
  destruct (acc.1 !! roomId) as [room|]; cbn; [|by rewrite app_nil_r].
  destruct (find_player sid (Room.players room)) as [[i p]|]; cbn;
    [|by rewrite app_nil_r].
  case_bool_decide; cbn; [by rewrite app_nil_r | done].
Qed.

Lemma disconnect_fold sid (rs : gmap string Room.t) evs0 (l : list string) :
  NoDup l →
  let res := foldl (disconnect_room sid) (rs, evs0) l in
  (∀ k, res.1 !! k = if decide (k ∈ l) then rs !! k ≫= leave sid else rs !! k) ∧
  res.2 = evs0 ++
    mjoin ((λ k, from_option (leave_events sid k) [] (rs !! k)) <$> l).
Proof.
  induction l as [|x l IH] using rev_ind; intros Hnd res.
  - cbn. split; [done | by rewrite app_nil_r].
  - apply NoDup_app in Hnd as (Hnd & Hx & _).
    specialize (IH Hnd) as [IH1 IH2]. subst res.
    rewrite foldl_app. cbn [foldl].
    set (acc := foldl (disconnect_room sid) (rs, evs0) l) in *.
    assert (x ∉ l) as Hxl.
    { intros Hin. apply (Hx x Hin). by apply list_elem_of_singleton. }
    assert (acc.1 !! x = rs !! x) as Hax.
    { rewrite IH1. by rewrite decide_False. }
    split.
    + intros k. rewrite disconnect_room_lookup, Hax, IH1.
      destruct (decide (k = x)) as [->|Hne].
      * rewrite decide_True; [done|]. apply elem_of_app. right.
        by apply list_elem_of_singleton.
      * destruct (decide (k ∈ l)) as [Hin|Hin].
        -- rewrite decide_True; [done|]. apply elem_of_app. by left.
        -- rewrite decide_False; [done|]. rewrite elem_of_app.
           rewrite list_elem_of_singleton. tauto.
    + rewrite disconnect_room_events, Hax, IH2.
      rewrite fmap_app, join_app. cbn. by rewrite app_nil_r, app_assoc.
Qed.

Lemma disconnect_rooms sid st k :
  rooms (disconnect sid st).1 !! k = rooms st !! k ≫= leave sid.
Proof.
  unfold disconnect.
  pose proof (disconnect_fold sid (rooms st) [] _
                (NoDup_fst_map_to_list (rooms st))) as [H1 _].
  destruct (foldl _ _ _) as [rs evs]. cbn in *. rewrite H1.
  case_decide as Hin; [done|].
  destruct (rooms st !! k) as [r|] eqn:Hl; [|done].
  destruct Hin. apply list_elem_of_fmap. exists (k, r). split; [done|].
  by apply elem_of_map_to_list.
Qed.

Lemma disconnect_timers sid st : timers (disconnect sid st).1 = timers st.
Proof. unfold disconnect. by destruct (foldl _ _ _). Qed.

Lemma disconnect_events sid st e :
  e ∈ (disconnect sid st).2 ↔
  ∃ k room, rooms st !! k = Some room ∧ e ∈ leave_events sid k room.
Proof.
  unfold disconnect.
  pose proof (disconnect_fold sid (rooms st) [] _
                (NoDup_fst_map_to_list (rooms st))) as [_ H2].
  destruct (foldl _ _ _) as [rs evs]. cbn in *. subst evs.
  rewrite list_elem_of_join. split.
  - intros (evs & He & Hevs).
    apply list_elem_of_fmap in Hevs as (k & -> & Hk).
    destruct (rooms st !! k) as [room|] eqn:Hl; [eauto|].
    cbn in He. by apply elem_of_nil in He.
  - intros (k & room & Hl & He).
    exists (leave_events sid k room). split; [done|].
    apply list_elem_of_fmap. exists k. rewrite Hl. split; [done|].
    apply list_elem_of_fmap. exists (k, room). split; [done|].
    by apply elem_of_map_to_list.
Qed.

Lemma leave_ids sid room r' :
  leave sid room = Some r' →
  ids r' `sublist_of` ids room ∧ Room.status r' = Room.status room.
Proof.
  unfold leave.
  destruct (find_player sid (Room.players room)) as [[i p]|].
  - cbn zeta. case_bool_decide; [done|]. intros [= <-]. split; [|done].
    unfold ids. cbn. rewrite list_fmap_delete. apply sublist_delete.
  - by intros [= <-].
Qed.

Lemma disconnect_lookup sid st k r' :
  rooms (disconnect sid st).1 !! k = Some r' →
  ∃ r, rooms st !! k = Some r ∧ ids r' `sublist_of` ids r.
Proof.
  rewrite disconnect_rooms.
  destruct (rooms st !! k) as [r|]; [|done]. cbn.
  intros [H _]%leave_ids. eauto.
Qed.

(** ** Reachable states *)

(** Every input but [join_room] can only drop players from a room. *)
Lemma handle_shrinks now inp st k r' :
  is_join inp = false →
  rooms (handle now inp st).1 !! k = Some r' →
  ∃ r, rooms st !! k = Some r ∧ ids r' `sublist_of` ids r.
Proof.
  destruct inp as [sid roomId name|sid roomId|sid roomId targetId
                  |sid roomId score status|sid|n]; cbn [is_join handle];
    intros Hj Hk; [done|..].
  - apply toggle_ready_lookup in Hk as (r & ? & ->). eauto.
  - by apply kick_player_lookup in Hk.
  - apply update_player_lookup in Hk as (r & ? & ->). eauto.
  - by apply disconnect_lookup in Hk.
  - by apply fire_lookup in Hk.
Qed.

Lemma reachable_run trace st : reachable st → reachable (run trace st).1.
Proof.
  revert st. induction trace as [|[now inp] rest IH]; intros st Hst; [done|].
  cbn [run]. destruct (handle now inp st) as [st1 evs1] eqn:H1.
  specialize (IH st1). destruct (run rest st1) as [st2 evs2]. cbn in *.
  apply IH. change st1 with (st1, evs1).1. rewrite <-H1.
  by apply reachable_step.
Qed.

Lemma ids_length r : length (ids r) = length (Room.players r).
Proof. apply length_fmap. Qed.

Lemma handle_bounded now inp st : bounded st → bounded (handle now inp st).1.
Proof.
  intros Hb k r' Hk. destruct (is_join inp) eqn:Hj.
  - destruct inp as [sid roomId name| | | | |]; try done. cbn [handle] in Hk.
    apply join_room_lookup in Hk as [Hk|(_ & Hlt & ->)]; [by eapply Hb|].
    rewrite length_app. cbn. lia.
  - apply (handle_shrinks _ _ _ _ _ Hj) in Hk as (r & Hr & Hsub).
    apply sublist_length in Hsub. rewrite !ids_length in Hsub.
    specialize (Hb k r Hr). lia.
Qed.

Lemma reachable_bounded st : reachable st → bounded st.
Proof.
  induction 1 as [|st now inp _ IH]; [by intros k r ?|].
  by apply handle_bounded.
Qed.

(** ** Uniqueness of ids *)

Lemma roomOrNew_unique roomId st : unique_ids st → NoDup (ids (roomOrNew roomId st)).
Proof.
  intros Hu. unfold roomOrNew.
  destruct (rooms st !! roomId) as [r|] eqn:Hl; cbn; [by eapply Hu|].
  apply NoDup_nil_2.
Qed.

Lemma handle_unique_ids now inp st :
  unique_ids st → fresh_join inp st → unique_ids (handle now inp st).1.
Proof.
  intros Hu Hf k r' Hk. destruct (is_join inp) eqn:Hj.
  - destruct inp as [sid roomId name| | | | |]; try done.
    cbn [handle fresh_join] in *.
    apply join_room_lookup in Hk as [Hk|(_ & _ & Hps)]; [by eapply Hu|].
    unfold ids. rewrite Hps, fmap_app. cbn.
    apply NoDup_app. split_and!.
    + by apply roomOrNew_unique.
    + intros x Hx ->%list_elem_of_singleton. by apply Hf.
    + apply NoDup_singleton.
  - apply (handle_shrinks _ _ _ _ _ Hj) in Hk as (r & Hr & Hsub).
    eapply sublist_NoDup; [by eapply Hu | exact Hsub].
Qed.

(** * C1 *)

(** C1: in every reachable state each room holds at most
    REQUIRED_PLAYERS players; a join_room for a room that already holds
    REQUIRED_PLAYERS players is answered with an error to the requester
    and changes nothing; and no input other than join_room makes any
    player list longer. *)
Theorem players_never_exceed_required st now inp :
  reachable st →
  (∀ k r, rooms st !! k = Some r →
          (length (Room.players r) ≤ REQUIRED_PLAYERS)%nat) ∧
  (∀ sid roomId name room,
      inp = JoinRoom sid roomId name →
      rooms st !! roomId = Some room →
      (REQUIRED_PLAYERS ≤ length (Room.players room))%nat →
      ∃ msg, handle now inp st = (st, [error_msg sid msg])) ∧
  (is_join inp = false →
   ∀ k r', rooms (handle now inp st).1 !! k = Some r' →
           ∃ r, rooms st !! k = Some r ∧
                (length (Room.players r') ≤ length (Room.players r))%nat).
Proof.
  intros Hst. split_and!.
  - by apply reachable_bounded.
  - intros sid roomId name room -> Hl Hfull. cbn [handle].
    eapply join_room_reject; eauto.
  - intros Hj k r' Hk.
    apply (handle_shrinks _ _ _ _ _ Hj) in Hk as (r & Hr & Hsub).
    exists r. split; [done|].
    apply sublist_length in Hsub. by rewrite !ids_length in Hsub.
Qed.

Lemma players_never_exceed_required_witness :
  reachable (state_after scenario_joined) ∧
  (∀ k r, rooms (state_after scenario_joined) !! k = Some r →
          (length (Room.players r) ≤ REQUIRED_PLAYERS)%nat) ∧
  ∃ msg, handle 9 (JoinRoom "c" "R" None) (state_after scenario_joined) =
         (state_after scenario_joined, [error_msg "c" msg]).
Proof.
  assert (reachable (state_after scenario_joined)) as Hr
    by apply reachable_run, reachable_init.
  destruct (players_never_exceed_required
              (state_after scenario_joined) 9 (JoinRoom "c" "R" None) Hr)
    as (Hb & Hj & _).
  split_and!; [exact Hr | exact Hb |].
  eapply (Hj "c" "R" None); [reflexivity | vm_compute; reflexivity |].
  vm_compute. lia.
Defined.

(** * C2 *)

(** C2: for a room of the registry, the auto-start check sets the
    status to PLAYING and emits one start_game carrying now + 3000
    exactly when the room holds REQUIRED_PLAYERS players, all of them
    ready, and is not PLAYING yet; otherwise it changes nothing and
    emits nothing.  In particular it is idle on a PLAYING room, and a
    ready toggle in a PLAYING room emits no start_game and leaves the
    room PLAYING. *)
Theorem checkAndStartGame_exactly_when now roomId rs room :
  rs !! roomId = Some room →
  (start_condition room →
   checkAndStartGame now roomId rs =
     (<[roomId := Room.mk (Room.players room) PLAYING]> rs,
      [start_game roomId (now + 3000)])) ∧
  (¬ start_condition room → checkAndStartGame now roomId rs = (rs, [])) ∧
  (Room.status room = PLAYING →
   checkAndStartGame now roomId rs = (rs, []) ∧
   ∀ sid ts,
     let res := toggle_ready now sid roomId (mkState rs ts) in
     (∀ to t, start_game to t ∉ res.2) ∧
     Room.status <$> rooms res.1 !! roomId = Some PLAYING).
Proof.
  intros Hl. split_and!.
  - by apply checkAndStartGame_start.
  - by apply checkAndStartGame_idle.
  - intros Hs. split.
    { apply (checkAndStartGame_idle _ _ _ _ Hl). by intros (_ & _ & ?). }
    intros sid ts. unfold toggle_ready. cbn [rooms]. rewrite Hl.
    destruct (find_player sid (Room.players room)) as [[i p]|].
    + erewrite checkAndStartGame_idle;
        [| apply lookup_insert_eq | by intros (_ & _ & ?)].
      cbn. split.
      * intros to t [=]%list_elem_of_singleton.
      * by rewrite lookup_insert_eq; cbn; rewrite Hs.
    + cbn. split; [intros to t []%elem_of_nil | by rewrite Hl; cbn; rewrite Hs].
Qed.

Lemma checkAndStartGame_exactly_when_witness :
  let room := Room.mk [agent "a" "Ann" true 0 "ALIVE";
                       agent "b" "Bob" true 0 "ALIVE"] LOBBY in
  let rs : gmap string Room.t := {["R" := room]} in
  rs !! "R" = Some room ∧
  start_condition room ∧
  checkAndStartGame 100 "R" rs =
    (<["R" := Room.mk (Room.players room) PLAYING]> rs, [start_game "R" 3100]).
Proof.
  intros room rs.
  assert (rs !! "R" = Some room) as Hl by reflexivity.
  assert (start_condition room) as Hc.
  { split_and!; [reflexivity | by repeat constructor | done]. }
  split_and!; [exact Hl | exact Hc |].
  exact (proj1 (checkAndStartGame_exactly_when 100 "R" rs room Hl) Hc).
Defined.

(** * C3 *)

(** C3: when an update_player from a player of the room leaves every
    player DEAD or FINISHED while the room is PLAYING, the room becomes
    GAME_OVER, the events are the player_updated followed by exactly one
    force_game_over with the player list and now + LEADERBOARD_DURATION,
    and exactly one timer, due at now + LEADERBOARD_DURATION, is added;
    that timer, once fired, runs the reset action for this room and is
    gone.  In every other case the status and the timers stay as they
    were and player_updated is the only event. *)
Theorem update_player_game_over now sid roomId score status st room i p :
  rooms st !! roomId = Some room →
  find_player sid (Room.players room) = Some (i, p) →
  let p' := Player.mk (Player.id p) (Player.name p) (Player.isReady p)
                      score status in
  let ps := <[i := p']> (Room.players room) in
  let all_done :=
    Forall (λ q, Player.status q = "DEAD" ∨ Player.status q = "FINISHED") ps in
  let over :=
    mkState (<[roomId := Room.mk ps GAME_OVER]> (rooms st))
            (timers st ++ [mkTimer (now + LEADERBOARD_DURATION) roomId]) in
  (Room.status room = PLAYING ∧ all_done →
   update_player now sid roomId score status st =
     (over, [player_updated roomId p';
             force_game_over roomId ps (now + LEADERBOARD_DURATION)]) ∧
   fire (now + LEADERBOARD_DURATION) (length (timers st)) over =
     reset_action roomId (mkState (rooms over) (timers st))) ∧
  (¬ (Room.status room = PLAYING ∧ all_done) →
   update_player now sid roomId score status st =
     (mkState (<[roomId := Room.mk ps (Room.status room)]> (rooms st))
              (timers st),
      [player_updated roomId p'])).
Proof.
  intros Hl Hf p' ps all_done over. unfold update_player.
  rewrite Hl, Hf. cbn zeta. fold p'. change (set_state score status p) with p'.
  fold ps. split.
  - intros [Hs Hd]. split.
    + rewrite (proj2 (forallb_is_done ps) Hd), (bool_decide_eq_true_2 _ Hs).
      done.
    + unfold fire, over. cbn [timers rooms].
      rewrite list_lookup_middle by done. cbn [due timer_room].
      rewrite bool_decide_eq_true_2 by lia.
      by rewrite delete_middle, app_nil_r.
  - intros Hn. destruct (forallb is_done ps && _) eqn:Hc; [|done].
    apply andb_true_iff in Hc as [Hd%forallb_is_done Hs%bool_decide_eq_true].
    by destruct Hn.
Qed.

Lemma update_player_game_over_witness :
  let st := state_after (scenario_started ++ [(4, UpdatePlayer "a" "R" 5 "FINISHED")]) in
  let room := Room.mk [agent "a" "Agent a" true 5 "FINISHED";
                       agent "b" "Bob" true 0 "ALIVE"] PLAYING in
  let ps := [agent "a" "Agent a" true 5 "FINISHED"; agent "b" "Bob" true 7 "DEAD"] in
  rooms st !! "R" = Some room ∧
  find_player "b" (Room.players room) =
    Some (1%nat, agent "b" "Bob" true 0 "ALIVE") ∧
  (Room.status room = PLAYING ∧
   Forall (λ q, Player.status q = "DEAD" ∨ Player.status q = "FINISHED") ps) ∧
  update_player 5 "b" "R" 7 "DEAD" st =
    (mkState (<["R" := Room.mk ps GAME_OVER]> (rooms st))
             (timers st ++ [mkTimer (5 + LEADERBOARD_DURATION) "R"]),
     [player_updated "R" (agent "b" "Bob" true 7 "DEAD");
      force_game_over "R" ps (5 + LEADERBOARD_DURATION)]).
Proof.
  intros st room ps.
  assert (rooms st !! "R" = Some room) as Hl by (vm_compute; reflexivity).
  assert (find_player "b" (Room.players room) =
          Some (1%nat, agent "b" "Bob" true 0 "ALIVE")) as Hf
    by (vm_compute; reflexivity).
  assert (Room.status room = PLAYING ∧
          Forall (λ q, Player.status q = "DEAD" ∨ Player.status q = "FINISHED") ps)
    as Hd by (split; [reflexivity | repeat constructor; cbn; auto]).
  split; [exact Hl|]. split; [exact Hf|]. split; [exact Hd|].
  pose proof (update_player_game_over 5 "b" "R" 7 "DEAD" st room _ _ Hl Hf)
    as H.
  cbv zeta in H. destruct H as [H _]. destruct (H Hd) as [H1 _]. exact H1.
Defined.

(** * C4 *)

(** C4: when the reset action runs on a GAME_OVER room of the registry
    with a non-empty player list, the room afterwards holds exactly the
    player that was at index 0, with isReady = false, score = 0 and
    status ALIVE, the room is in LOBBY, every player after index 0 has
    been sent kicked, and the events are those kicked messages followed
    by the room_update of the one-player list; when the player list was
    empty the room is deleted.  No other room is touched. *)
Theorem reset_action_keeps_captain roomId st room :
  rooms st !! roomId = Some room →
  Room.status room = GAME_OVER →
  let res := reset_action roomId st in
  (∀ k, k ≠ roomId → rooms res.1 !! k = rooms st !! k) ∧
  match Room.players room with
  | captain :: others =>
      let captain' := Player.mk (Player.id captain) (Player.name captain)
                                false 0 "ALIVE" in
      rooms res.1 !! roomId = Some (Room.mk [captain'] LOBBY) ∧
      (∀ p, p ∈ others → kicked (Player.id p) ∈ res.2) ∧
      res.2 = ((λ p, kicked (Player.id p)) <$> others) ++
              [room_update roomId [captain']]
  | [] => rooms res.1 !! roomId = None ∧ res.2 = []
  end.
Proof.
  intros Hl Hs res. subst res. unfold reset_action. rewrite Hl.
  rewrite bool_decide_eq_false_2 by (by intros []).
  destruct (Room.players room) as [|captain others]; cbn.
  - split; [|by rewrite lookup_delete_eq].
    intros k Hk. by rewrite lookup_delete_ne.
  - split; [intros k Hk; by rewrite lookup_insert_ne|].
    split_and!; [by rewrite lookup_insert_eq | | done].
    intros p Hp. apply elem_of_app. left.
    by apply (list_elem_of_fmap_2 (λ p, kicked (Player.id p))).
Qed.

Lemma reset_action_keeps_captain_witness :
  let st := state_after scenario_over in
  let room := Room.mk [agent "a" "Agent a" true 5 "FINISHED";
                       agent "b" "Bob" true 7 "DEAD"] GAME_OVER in
  rooms st !! "R" = Some room ∧
  Room.status room = GAME_OVER ∧
  rooms (reset_action "R" st).1 !! "R" =
    Some (Room.mk [agent "a" "Agent a" false 0 "ALIVE"] LOBBY) ∧
  (reset_action "R" st).2 =
    [kicked "b"; room_update "R" [agent "a" "Agent a" false 0 "ALIVE"]].
Proof.
  intros st room.
  assert (rooms st !! "R" = Some room) as Hl by (vm_compute; reflexivity).
  assert (Room.status room = GAME_OVER) as Hs by reflexivity.
  split_and!; [exact Hl | exact Hs | |];
    destruct (reset_action_keeps_captain "R" st room Hl Hs)
      as (_ & H1 & _ & H2); [exact H1 | exact H2].
Defined.

(** * C5 *)

(** C5: when the reset action runs for a room id that is no longer in
    the registry, or whose room is not in GAME_OVER, it returns the
    state it was given and emits nothing. *)
Theorem reset_action_guard roomId st :
  (rooms st !! roomId = None ∨
   ∃ room, rooms st !! roomId = Some room ∧ Room.status room ≠ GAME_OVER) →
  reset_action roomId st = (st, []).
Proof.
  unfold reset_action. intros [->|(room & -> & Hs)]; [done|].
  by rewrite bool_decide_eq_true_2.
Qed.

Lemma reset_action_guard_witness :
  let st := state_after scenario_started in
  (rooms st !! "R" = None ∨
   ∃ room, rooms st !! "R" = Some room ∧ Room.status room ≠ GAME_OVER) ∧
  reset_action "R" st = (st, []).
Proof.
  intros st.
  assert (rooms st !! "R" = None ∨
          ∃ room, rooms st !! "R" = Some room ∧ Room.status room ≠ GAME_OVER)
    as H.
  { right. eexists. split; [vm_compute; reflexivity | discriminate]. }
  split; [exact H | exact (reset_action_guard "R" st H)].
Defined.

(** * C6 *)

Lemma kick_player_ok sid roomId targetId st room i p :
  rooms st !! roomId = Some room →
  is_captain sid room → targetId ≠ sid →
  find_player targetId (Room.players room) = Some (i, p) →
  kick_player sid roomId targetId st =
    (with_rooms (<[roomId := with_players (delete i (Room.players room)) room]>
                   (rooms st)) st,
     [kicked targetId; room_update roomId (delete i (Room.players room))]).
Proof.
  intros Hl (captain & rest & Hps & Hc) Hne Hf. unfold kick_player.
  rewrite Hl. revert Hf. rewrite Hps. intros Hf.
  rewrite (bool_decide_eq_true_2 _ Hc), (bool_decide_eq_false_2 _ Hne).
  by rewrite Hf.
Qed.

Lemma kick_player_noop sid roomId targetId st room :
  rooms st !! roomId = Some room →
  ¬ (is_captain sid room ∧ targetId ≠ sid ∧
     ∃ p, p ∈ Room.players room ∧ Player.id p = targetId) →
  kick_player sid roomId targetId st = (st, []).
Proof.
  intros Hl Hn. unfold kick_player. rewrite Hl.
  destruct (Room.players room) as [|captain rest] eqn:Hps; [done|].
  case_bool_decide as Hc; [|done]. case_bool_decide as Hne; [done|].
  destruct (find_player targetId (captain :: rest)) as [[i p]|] eqn:Hf; [|done].
  destruct Hn. split_and!; [by exists captain, rest | done |].
  apply find_player_is_Some. rewrite ?Hps. by rewrite Hf.
Qed.

(** C6, as stated, fails: the captain of room R asks to kick an id that
    is in no player list.  The requester is players[0] and the target is
    not the requester, yet nothing is removed and nothing is sent. *)
Lemma kick_player_absent_target_counterexample :
  let st := state_after scenario_joined in
  let room := Room.mk [agent "a" "Agent a" false 0 "ALIVE";
                       agent "b" "Bob" false 0 "ALIVE"] LOBBY in
  rooms st !! "R" = Some room ∧
  kick_player "a" "R" "z" st = (st, []) ∧
  ¬ (kick_succeeds "a" "R" "z" st ↔ is_captain "a" room ∧ "z" ≠ "a").
Proof.
  intros st room.
  assert (kick_player "a" "R" "z" st = (st, [])) as Hk by (vm_compute; reflexivity).
  split_and!; [vm_compute; reflexivity | exact Hk |].
  intros [_ Hiff].
  destruct Hiff as (r & i & p & _ & _ & _ & _ & Hev & _).
  - split; [|done]. by eexists _, _.
  - rewrite Hk in Hev. by apply elem_of_nil in Hev.
Qed.

(** C6, amended: for a room of the registry, a kick_player request
    succeeds if and only if the requester's id equals players[0].id,
    the target id differs from the requester's and the target id is the
    id of a player of the room; then the first entry with the target id
    is removed and the events are kicked to the target followed by the
    room_update of the shortened list.  In every other case the state is
    unchanged and nothing is emitted. *)
Theorem kick_player_iff sid roomId targetId st room :
  rooms st !! roomId = Some room →
  let authorized :=
    is_captain sid room ∧ targetId ≠ sid ∧
    ∃ p, p ∈ Room.players room ∧ Player.id p = targetId in
  (kick_succeeds sid roomId targetId st ↔ authorized) ∧
  (authorized →
   ∃ i p, find_player targetId (Room.players room) = Some (i, p) ∧
     kick_player sid roomId targetId st =
       (with_rooms (<[roomId := with_players (delete i (Room.players room)) room]>
                      (rooms st)) st,
        [kicked targetId; room_update roomId (delete i (Room.players room))])) ∧
  (¬ authorized → kick_player sid roomId targetId st = (st, [])).
Proof.
  intros Hl authorized.
  assert (authorized →
    ∃ i p, find_player targetId (Room.players room) = Some (i, p) ∧
     kick_player sid roomId targetId st =
       (with_rooms (<[roomId := with_players (delete i (Room.players room)) room]>
                      (rooms st)) st,
        [kicked targetId; room_update roomId (delete i (Room.players room))]))
    as Hok.
  { intros (Hc & Hne & [[i p] Hf]%find_player_is_Some).
    exists i, p. split; [done|]. by eapply kick_player_ok. }
  split_and!; [split | exact Hok | by apply kick_player_noop].
  - intros (r & i & p & Hr & Hi & Hid & Hres).
    cbv zeta in Hres. destruct Hres as (_ & Hev & _).
    destruct (decide (targetId = sid)) as [->|Hne].
    + unfold kick_player in Hev. rewrite Hl in Hev.
      destruct (Room.players room); [by apply elem_of_nil in Hev|].
      case_bool_decide; [|by apply elem_of_nil in Hev].
      rewrite bool_decide_eq_true_2 in Hev by done.
      by apply elem_of_nil in Hev.
    + assert (∃ q, q ∈ Room.players room ∧ Player.id q = targetId) as Hin.
      { exists p. rewrite Hl in Hr. injection Hr as <-.
        split; [by eapply list_elem_of_lookup_2 | done]. }
      split_and!; [|done..].
      unfold kick_player in Hev. rewrite Hl in Hev.
      destruct (Room.players room) as [|captain rest] eqn:Hps;
        [by apply elem_of_nil in Hev|].
      case_bool_decide as Hc; [|by apply elem_of_nil in Hev].
      exists captain, rest. by rewrite ?Hps.
  - intros Ha. destruct (Hok Ha) as (i & p & Hf & Hk).
    apply find_player_Some in Hf as [Hi Hid].
    exists room, i, p. rewrite Hk. cbv zeta. cbn [fst snd rooms with_rooms].
    split_and!; [done | done | done | | |].
    + by rewrite lookup_insert_eq.
    + apply list_elem_of_here.
    + apply list_elem_of_further, list_elem_of_here.
Qed.

Lemma kick_player_iff_witness :
  let st := state_after scenario_joined in
  let room := Room.mk [agent "a" "Agent a" false 0 "ALIVE";
                       agent "b" "Bob" false 0 "ALIVE"] LOBBY in
  rooms st !! "R" = Some room ∧
  kick_succeeds "a" "R" "b" st ∧
  kick_player "b" "R" "a" st = (st, []).
Proof.
  intros st room.
  assert (rooms st !! "R" = Some room) as Hl by (vm_compute; reflexivity).
  destruct (kick_player_iff "a" "R" "b" st room Hl) as ([_ Hs] & _ & _).
  destruct (kick_player_iff "b" "R" "a" st room Hl) as (_ & _ & Hn).
  split_and!; [exact Hl | apply Hs | apply Hn].
  - split_and!; [by eexists _, _ | done |].
    exists (agent "b" "Bob" false 0 "ALIVE").
    split; [apply list_elem_of_further, list_elem_of_here | done].
  - intros ((c & rest & [= <- <-] & Hc) & _). discriminate Hc.
Defined.

(** * C7 *)

(** C7: a join_room for a room of the registry whose status is PLAYING
    is rejected: the only event is an error_msg to the requester and the
    whole state, registry included, is unchanged. *)
Theorem join_room_playing_rejected now sid roomId name st room :
  rooms st !! roomId = Some room →
  Room.status room = PLAYING →
  join_room now sid roomId name st =
    (st, [error_msg sid "Mission already in progress. Access Denied."]).
Proof.
  intros Hl Hs. unfold join_room. rewrite Hl.
  rewrite (bool_decide_eq_true_2 _ Hs).
  by rewrite (insert_id _ _ _ Hl), with_rooms_id.
Qed.

Lemma join_room_playing_rejected_witness :
  let st := state_after scenario_started in
  let room := Room.mk [agent "a" "Agent a" true 0 "ALIVE";
                       agent "b" "Bob" true 0 "ALIVE"] PLAYING in
  rooms st !! "R" = Some room ∧
  Room.status room = PLAYING ∧
  join_room 9 "c" "R" (Some "Cy") st =
    (st, [error_msg "c" "Mission already in progress. Access Denied."]).
Proof.
  intros st room.
  assert (rooms st !! "R" = Some room) as Hl by (vm_compute; reflexivity).
  assert (Room.status room = PLAYING) as Hs by reflexivity.
  split_and!; [exact Hl | exact Hs |].
  exact (join_room_playing_rejected 9 "c" "R" (Some "Cy") st room Hl Hs).
Defined.

(** * C8 *)

(** C8: on disconnect, in every room holding a player with the
    connection's id the first such entry is removed (the only one when
    the ids of the room are pairwise distinct); the room is deleted
    from the registry when its list becomes empty, otherwise it keeps
    its status and the reduced list is broadcast to it.  Rooms without
    such a player are untouched, the only events are room_update
    broadcasts (no start_game, no force_game_over) and no timer is
    added, so a PLAYING room stays PLAYING with the players that are
    left: there is a reachable state in which a disconnect leaves a
    PLAYING room with fewer than REQUIRED_PLAYERS players. *)
Theorem disconnect_removes_player sid st k room i p :
  rooms st !! k = Some room →
  find_player sid (Room.players room) = Some (i, p) →
  let res := disconnect sid st in
  let ps := delete i (Room.players room) in
  (ps = [] → rooms res.1 !! k = None) ∧
  (ps ≠ [] →
   rooms res.1 !! k = Some (Room.mk ps (Room.status room)) ∧
   room_update k ps ∈ res.2) ∧
  (∀ k' room', rooms st !! k' = Some room' →
     find_player sid (Room.players room') = None →
     rooms res.1 !! k' = Some room') ∧
  (NoDup (ids room) → sid ∉ Player.id <$> ps) ∧
  (∀ e, e ∈ res.2 → ∃ k' ps', e = room_update k' ps') ∧
  timers res.1 = timers st ∧
  (∃ st0 sid0 k0 r0,
     reachable st0 ∧
     rooms (disconnect sid0 st0).1 !! k0 = Some r0 ∧
     Room.status r0 = PLAYING ∧
     (length (Room.players r0) < REQUIRED_PLAYERS)%nat).
Proof.
  intros Hl Hf res ps. subst res. split_and!.
  - intros Hps. rewrite disconnect_rooms, Hl. cbn. unfold leave.
    rewrite Hf. cbn zeta. fold ps. by rewrite Hps.
  - intros Hps.
    assert (length ps ≠ 0%nat) as Hlen by (by destruct ps).
    split.
    + rewrite disconnect_rooms, Hl. cbn. unfold leave. rewrite Hf.
      cbn zeta. fold ps. by rewrite bool_decide_eq_false_2.
    + apply disconnect_events. exists k, room. split; [done|].
      unfold leave_events. rewrite Hf. cbn zeta. fold ps.
      rewrite bool_decide_eq_false_2 by done. apply list_elem_of_here.
  - intros k' room' Hl' Hf'. rewrite disconnect_rooms, Hl'. cbn.
    unfold leave. by rewrite Hf'.
  - intros Hnd. apply find_player_Some in Hf as [Hi <-].
    subst ps. rewrite list_fmap_delete.
    apply NoDup_delete_not_elem; [done|].
    by rewrite list_lookup_fmap, Hi.
  - intros e (k' & room' & _ & He)%disconnect_events.
    unfold leave_events in He.
    destruct (find_player sid (Room.players room')) as [[j q]|];
      [|by apply elem_of_nil in He].
    cbn zeta in He. case_bool_decide; [by apply elem_of_nil in He|].
    apply list_elem_of_singleton in He. eauto.
  - apply disconnect_timers.
  - exists (state_after scenario_started), "b", "R",
      (Room.mk [agent "a" "Agent a" true 0 "ALIVE"] PLAYING).
    split_and!; [apply reachable_run, reachable_init | | done |].
    + vm_compute. reflexivity.
    + cbn. unfold REQUIRED_PLAYERS. lia.
Qed.

Lemma disconnect_removes_player_witness :
  let st := state_after scenario_started in
  let room := Room.mk [agent "a" "Agent a" true 0 "ALIVE";
                       agent "b" "Bob" true 0 "ALIVE"] PLAYING in
  rooms st !! "R" = Some room ∧
  find_player "b" (Room.players room) =
    Some (1%nat, agent "b" "Bob" true 0 "ALIVE") ∧
  rooms (disconnect "b" st).1 !! "R" =
    Some (Room.mk [agent "a" "Agent a" true 0 "ALIVE"] PLAYING) ∧
  room_update "R" [agent "a" "Agent a" true 0 "ALIVE"] ∈ (disconnect "b" st).2.
Proof.
  intros st room.
  assert (rooms st !! "R" = Some room) as Hl by (vm_compute; reflexivity).
  assert (find_player "b" (Room.players room) =
          Some (1%nat, agent "b" "Bob" true 0 "ALIVE")) as Hf
    by (vm_compute; reflexivity).
  split; [exact Hl|]. split; [exact Hf|].
  destruct (disconnect_removes_player "b" st "R" room _ _ Hl Hf)
    as (_ & H & _).
  apply H. discriminate.
Defined.

(** * C9 *)

(** C9, as stated, fails: the same connection sends join_room twice for
    room R; the second request finds the room in LOBBY with one player
    and appends a second entry with the same id. *)
Lemma player_ids_unique_counterexample :
  let st := state_after [(0, JoinRoom "a" "R" None); (1, JoinRoom "a" "R" None)] in
  reachable st ∧
  ids <$> rooms st !! "R" = Some ["a"; "a"] ∧
  ¬ unique_ids st.
Proof.
  intros st. split_and!.
  - apply reachable_run, reachable_init.
  - vm_compute. reflexivity.
  - intros Hu.
    specialize (Hu "R" (Room.mk [agent "a" "Agent a" false 0 "ALIVE";
                                 agent "a" "Agent a" false 0 "ALIVE"] LOBBY)).
    assert (NoDup ["a"; "a"]) as Hnd by (apply Hu; vm_compute; reflexivity).
    apply NoDup_cons in Hnd as [Hnin _]. apply Hnin, list_elem_of_here.
Qed.

(** C9, amended: in every state reached by inputs among which no
    join_room comes from a connection whose id is already in the player
    list of the room it asks for, the ids of the players of a room are
    pairwise distinct; from such a state toggle_ready, kick_player,
    update_player, disconnect, the reset timer and every such join_room
    lead to a state with pairwise distinct ids again. *)
Theorem player_ids_unique_unless_rejoin st now inp :
  reachable_fresh st →
  unique_ids st ∧ (fresh_join inp st → unique_ids (handle now inp st).1).
Proof.
  intros Hst.
  assert (unique_ids st) as Hu.
  { induction Hst as [|st' now' inp' _ IH Hf]; [by intros k r ?|].
    by apply handle_unique_ids. }
  split; [done|]. by apply handle_unique_ids.
Qed.

Lemma player_ids_unique_unless_rejoin_witness :
  let st := (handle 0 (JoinRoom "a" "R" None) init).1 in
  reachable_fresh st ∧
  unique_ids st ∧
  unique_ids (handle 1 (JoinRoom "b" "R" None) st).1.
Proof.
  intros st.
  assert (reachable_fresh st) as Hr.
  { apply reachable_fresh_step; [apply reachable_fresh_init|].
    cbn. apply not_elem_of_nil. }
  destruct (player_ids_unique_unless_rejoin st 1 (JoinRoom "b" "R" None) Hr)
    as [Hu Hstep].
  split_and!; [exact Hr | exact Hu |].
  apply Hstep. vm_compute. intros [[=]|[]%elem_of_nil]%elem_of_cons.
Defined.

(** * C10 *)

(** C10: a join_room for a room of the registry that is in GAME_OVER
    and holds fewer than REQUIRED_PLAYERS players is accepted: a new
    player with isReady = false, score = 0 and status ALIVE is appended,
    the room stays in GAME_OVER and the new list is broadcast. *)
Theorem join_room_during_game_over now sid roomId name st room :
  rooms st !! roomId = Some room →
  Room.status room = GAME_OVER →
  (length (Room.players room) < REQUIRED_PLAYERS)%nat →
  let ps := Room.players room ++
            [Player.mk sid (display_name name sid) false 0 "ALIVE"] in
  join_room now sid roomId name st =
    (mkState (<[roomId := Room.mk ps GAME_OVER]> (rooms st)) (timers st),
     [room_update roomId ps]).
Proof.
  intros Hl Hs Hlen ps.
  pose proof (join_room_accept now sid roomId name st) as H.
  unfold roomOrNew in H. rewrite Hl in H. cbn in H.
  rewrite H by (done || by rewrite Hs). unfold with_players, with_rooms.
  by rewrite Hs.
Qed.

Lemma join_room_during_game_over_witness :
  let st := state_after (scenario_over ++ [(6, Disconnect "b")]) in
  let room := Room.mk [agent "a" "Agent a" true 5 "FINISHED"] GAME_OVER in
  rooms st !! "R" = Some room ∧
  Room.status room = GAME_OVER ∧
  (length (Room.players room) < REQUIRED_PLAYERS)%nat ∧
  join_room 7 "c" "R" None st =
    (mkState (<["R" := Room.mk [agent "a" "Agent a" true 5 "FINISHED";
                                agent "c" "Agent c" false 0 "ALIVE"] GAME_OVER]>
                (rooms st)) (timers st),
     [room_update "R" [agent "a" "Agent a" true 5 "FINISHED";
                       agent "c" "Agent c" false 0 "ALIVE"]]).
Proof.
  intros st room.
  assert (rooms st !! "R" = Some room) as Hl by (vm_compute; reflexivity).
  assert (Room.status room = GAME_OVER) as Hs by reflexivity.
  assert (length (Room.players room) < REQUIRED_PLAYERS)%nat as Hlen
    by (vm_compute; lia).
  split_and!; [exact Hl | exact Hs | exact Hlen |].
  exact (join_room_during_game_over 7 "c" "R" None st room Hl Hs Hlen).
Defined.

(** * Further properties of the handlers *)

#[global] Instance start_condition_dec room : Decision (start_condition room).
Proof. unfold start_condition. apply _. Defined.

(** ** The cases of each handler *)

Lemma join_room_inv now sid roomId name st :
  (∃ room msg, rooms st !! roomId = Some room ∧
     (Room.status room = PLAYING ∨
      (REQUIRED_PLAYERS ≤ length (Room.players room))%nat) ∧
     join_room now sid roomId name st = (st, [error_msg sid msg])) ∨
  (let room := roomOrNew roomId st in
   let ps := Room.players room ++ [newPlayer sid name] in
   Room.status room ≠ PLAYING ∧
   (length (Room.players room) < REQUIRED_PLAYERS)%nat ∧
   join_room now sid roomId name st =
     (with_rooms (<[roomId := Room.mk ps (Room.status room)]> (rooms st)) st,
      [room_update roomId ps])).
Proof.
  destruct (decide (Room.status (roomOrNew roomId st) = PLAYING)) as [Hs|Hs];
    [|destruct (decide (REQUIRED_PLAYERS ≤
         length (Room.players (roomOrNew roomId st)))%nat) as [Hf|Hf]].
  - left. unfold roomOrNew in Hs.
    destruct (rooms st !! roomId) as [room|] eqn:Hl; [|done].
    destruct (join_room_reject now sid roomId name st room Hl) as [msg Hj];
      [by left|]. exists room, msg. auto.
  - left. unfold roomOrNew in Hf.
    destruct (rooms st !! roomId) as [room|] eqn:Hl;
      [|cbn in Hf; unfold REQUIRED_PLAYERS in Hf; lia].
    destruct (join_room_reject now sid roomId name st room Hl) as [msg Hj];
      [by right|]. exists room, msg. auto.
  - right. cbv zeta. split_and!; [done | lia |].
    by rewrite join_room_accept by (done || lia).
Qed.

Lemma toggle_ready_inv now sid roomId st :
  (toggle_ready now sid roomId st = (st, []) ∧
   ∀ r, rooms st !! roomId = Some r → find_player sid (Room.players r) = None) ∨
  (∃ room i p,
     rooms st !! roomId = Some room ∧
     find_player sid (Room.players room) = Some (i, p) ∧
     let ps := <[i := toggle p]> (Room.players room) in
     (start_condition (Room.mk ps (Room.status room)) ∧
      toggle_ready now sid roomId st =
        (with_rooms (<[roomId := Room.mk ps PLAYING]> (rooms st)) st,
         [room_update roomId ps; start_game roomId (now + 3000)])) ∨
     (¬ start_condition (Room.mk ps (Room.status room)) ∧
      toggle_ready now sid roomId st =
        (with_rooms (<[roomId := Room.mk ps (Room.status room)]> (rooms st)) st,
         [room_update roomId ps]))).
Proof.
  unfold toggle_ready.
  destruct (rooms st !! roomId) as [room|] eqn:Hl; [|by left].
  destruct (find_player sid (Room.players room)) as [[i p]|] eqn:Hf.
  - right. exists room, i, p. split_and!; [done..|]. cbv zeta.
    set (ps := <[i := toggle p]> (Room.players room)).
    destruct (decide (start_condition (Room.mk ps (Room.status room))))
      as [Hc|Hc]; [left|right]; (split; [done|]).
    + erewrite checkAndStartGame_start; [|apply lookup_insert_eq|done].
      by rewrite insert_insert_eq.
    + by erewrite checkAndStartGame_idle; [|apply lookup_insert_eq|done].
  - left. split; [done|]. by intros r [= <-].
Qed.

Lemma kick_player_inv sid roomId targetId st :
  kick_player sid roomId targetId st = (st, []) ∨
  (∃ room captain rest i p,
     rooms st !! roomId = Some room ∧
     Room.players room = captain :: rest ∧ Player.id captain = sid ∧
     targetId ≠ sid ∧
     find_player targetId (Room.players room) = Some (i, p) ∧
     let ps := delete i (Room.players room) in
     kick_player sid roomId targetId st =
       (with_rooms (<[roomId := Room.mk ps (Room.status room)]> (rooms st)) st,
        [kicked targetId; room_update roomId ps])).
Proof.
  unfold kick_player.
  destruct (rooms st !! roomId) as [room|] eqn:Hl; [|by left].
  destruct (Room.players room) as [|captain rest] eqn:Hps; [by left|].
  case_bool_decide as Hc; [|by left]. case_bool_decide as Hne; [by left|].
  destruct (find_player targetId (captain :: rest)) as [[i p]|] eqn:Hf;
    [|by left].
  right. exists room, captain, rest, i, p. by rewrite ?Hps.
Qed.

Lemma update_player_inv now sid roomId score status st :
  (update_player now sid roomId score status st = (st, []) ∧
   ∀ r, rooms st !! roomId = Some r → find_player sid (Room.players r) = None) ∨
  (∃ room i p,
     rooms st !! roomId = Some room ∧
     find_player sid (Room.players room) = Some (i, p) ∧
     let p' := set_state score status p in
     let ps := <[i := p']> (Room.players room) in
     let all_done :=
       Forall (λ q, Player.status q = "DEAD" ∨ Player.status q = "FINISHED") ps in
     (Room.status room = PLAYING ∧ all_done ∧
      update_player now sid roomId score status st =
        (mkState (<[roomId := Room.mk ps GAME_OVER]> (rooms st))
                 (timers st ++ [mkTimer (now + LEADERBOARD_DURATION) roomId]),
         [player_updated roomId p';
          force_game_over roomId ps (now + LEADERBOARD_DURATION)])) ∨
     (¬ (Room.status room = PLAYING ∧ all_done) ∧
      update_player now sid roomId score status st =
        (with_rooms (<[roomId := Room.mk ps (Room.status room)]> (rooms st)) st,
         [player_updated roomId p']))).
Proof.
  unfold update_player.
  destruct (rooms st !! roomId) as [room|] eqn:Hl; [|by left].
  destruct (find_player sid (Room.players room)) as [[i p]|] eqn:Hf.
  - right. exists room, i, p. split_and!; [done..|]. cbv zeta.
    set (p' := set_state score status p).
    set (ps := <[i := p']> (Room.players room)).
    destruct (forallb is_done ps && bool_decide (Room.status room = PLAYING))
      eqn:Hc.
    + apply andb_true_iff in Hc as [Hd%forallb_is_done Hs%bool_decide_eq_true].
      by left.
    + right. split; [|done]. intros [Hs Hd%forallb_is_done].
      by rewrite Hd, (bool_decide_eq_true_2 _ Hs) in Hc.
  - left. split; [done|]. by intros r [= <-].
Qed.

Lemma reset_action_inv roomId st :
  (reset_action roomId st = (st, []) ∧
   ∀ r, rooms st !! roomId = Some r → Room.status r ≠ GAME_OVER) ∨
  (∃ room, rooms st !! roomId = Some room ∧ Room.status room = GAME_OVER ∧
     match Room.players room with
     | captain :: others =>
         reset_action roomId st =
           (with_rooms (<[roomId := Room.mk [reset_captain captain] LOBBY]>
                          (rooms st)) st,
            ((λ p, kicked (Player.id p)) <$> others) ++
            [room_update roomId [reset_captain captain]])
     | [] => reset_action roomId st =
               (with_rooms (delete roomId (rooms st)) st, [])
     end).
Proof.
  unfold reset_action.
  destruct (rooms st !! roomId) as [room|] eqn:Hl; [|by left].
  case_bool_decide as Hs.
  - left. split; [done|]. by intros r [= <-].
  - right. exists room. split_and!; [done | by destruct (Room.status room) |].
    by destruct (Room.players room).
Qed.

Lemma fire_inv now n st :
  fire now n st = (st, []) ∨
  (∃ t, timers st !! n = Some t ∧ (due t ≤ now)%Z ∧
        fire now n st =
          reset_action (timer_room t) (mkState (rooms st) (delete n (timers st)))).
Proof.
  unfold fire. destruct (timers st !! n) as [t|]; [|by left].
  case_bool_decide; [|by left]. right. by exists t.
Qed.

Lemma find_player_insert_same sid ps i p p' :
  find_player sid ps = Some (i, p) → Player.id p' = sid →
  find_player sid (<[i := p']> ps) = Some (i, p').
Proof.
  unfold find_player. rewrite !list_find_Some. intros (Hi & Hp & Hlt) Hp'.
  split_and!; [|done|].
  - apply list_lookup_insert_eq. by eapply lookup_lt_Some.
  - intros j y Hj Hji. rewrite list_lookup_insert_ne in Hj by lia. eauto.
Qed.

Lemma find_player_None sid ps :
  find_player sid ps = None ↔ sid ∉ Player.id <$> ps.
Proof.
  split.
  - intros Hf (p & -> & Hp)%list_elem_of_fmap.
    assert (is_Some (find_player (Player.id p) ps)) as [? ?]
      by (apply find_player_is_Some; eauto).
    congruence.
  - intros Hn. destruct (find_player sid ps) as [[i p]|] eqn:Hf; [|done].
    apply find_player_Some in Hf as [Hi <-]. destruct Hn.
    apply list_elem_of_fmap. exists p. split; [done|].
    by eapply list_elem_of_lookup_2.
Qed.

(** ** First join, and joins never start a game *)



(** X2: join_room never emits start_game and never changes the status
    of a room that was already in the registry: the auto-start check at
    its end cannot fire, since the newcomer is not ready. *)
Theorem join_room_never_starts now sid roomId name st :
  (∀ to t, start_game to t ∉ (join_room now sid roomId name st).2) ∧
  (∀ k r r', rooms st !! k = Some r →
             rooms (join_room now sid roomId name st).1 !! k = Some r' →
             Room.status r' = Room.status r).
Proof.
  destruct (join_room_inv now sid roomId name st)
    as [(room & msg & Hl & _ & ->)|H].
  - split.
    + intros to t [=]%list_elem_of_singleton.
    + intros k r r' Hr Hr'. cbn in Hr'. congruence.
  - cbv zeta in H. destruct H as (Hs & Hlen & ->). split.
    + intros to t [=]%list_elem_of_singleton.
    + intros k r r' Hr. cbn. destruct (decide (roomId = k)) as [->|Hne].
      * rewrite lookup_insert_eq. intros [= <-]. cbn.
        unfold roomOrNew. by rewrite Hr.
      * rewrite lookup_insert_ne by done. congruence.
Qed.

(** ** Requests from connections that are not in the room *)



(** ** Ready toggles *)

(** X4: when a player of a full room that is not PLAYING toggles and
    thereby makes every player ready, the room becomes PLAYING and the
    events are the room_update of the new list followed by one
    start_game carrying now + 3000. *)
Theorem toggle_ready_starts_game now sid roomId st room i p :
  rooms st !! roomId = Some room →
  find_player sid (Room.players room) = Some (i, p) →
  let ps := <[i := toggle p]> (Room.players room) in
  length (Room.players room) = REQUIRED_PLAYERS →
  Room.status room ≠ PLAYING →
  Forall (λ q, Player.isReady q = true) ps →
  toggle_ready now sid roomId st =
    (mkState (<[roomId := Room.mk ps PLAYING]> (rooms st)) (timers st),
     [room_update roomId ps; start_game roomId (now + 3000)]).
Proof.
  intros Hl Hf ps Hlen Hs Hall.
  destruct (toggle_ready_inv now sid roomId st)
    as [[_ H]|(room' & i' & p' & Hl' & Hf' & H)].
  { specialize (H room Hl). congruence. }
  rewrite Hl in Hl'. injection Hl' as <-. rewrite Hf in Hf'.
  injection Hf' as <- <-. cbv zeta in H. fold ps in H.
  destruct H as [[_ ->]|[Hn _]]; [done|].
  destruct Hn. split_and!; [|done..]. cbn. unfold ps. by rewrite length_insert.
Qed.

Lemma toggle_ready_starts_game_witness :
  let st := state_after (scenario_joined ++ [(2, ToggleReady "a" "R")]) in
  let room := Room.mk [agent "a" "Agent a" true 0 "ALIVE";
                       agent "b" "Bob" false 0 "ALIVE"] LOBBY in
  let ps := [agent "a" "Agent a" true 0 "ALIVE"; agent "b" "Bob" true 0 "ALIVE"] in
  rooms st !! "R" = Some room ∧
  find_player "b" (Room.players room) =
    Some (1%nat, agent "b" "Bob" false 0 "ALIVE") ∧
  toggle_ready 3 "b" "R" st =
    (mkState (<["R" := Room.mk ps PLAYING]> (rooms st)) (timers st),
     [room_update "R" ps; start_game "R" 3003]).
Proof.
  intros st room ps.
  assert (rooms st !! "R" = Some room) as Hl by (vm_compute; reflexivity).
  assert (find_player "b" (Room.players room) =
          Some (1%nat, agent "b" "Bob" false 0 "ALIVE")) as Hf
    by (vm_compute; reflexivity).
  split; [exact Hl|]. split; [exact Hf|].
  apply (toggle_ready_starts_game 3 "b" "R" st room _ _ Hl Hf);
    [reflexivity | discriminate | by repeat constructor].
Defined.

(** X5: two ready toggles in a row by the same player, neither of
    which starts a game, put the state back exactly as it was; the
    second one broadcasts the original player list. *)
Theorem toggle_ready_twice now1 now2 sid roomId st room i p :
  rooms st !! roomId = Some room →
  find_player sid (Room.players room) = Some (i, p) →
  ¬ start_condition (Room.mk (<[i := toggle p]> (Room.players room))
                             (Room.status room)) →
  ¬ start_condition room →
  toggle_ready now2 sid roomId (toggle_ready now1 sid roomId st).1 =
    (st, [room_update roomId (Room.players room)]).
Proof.
  intros Hl Hf Hn1 Hn2.
  set (ps := <[i := toggle p]> (Room.players room)) in *.
  assert (toggle_ready now1 sid roomId st =
          (with_rooms (<[roomId := Room.mk ps (Room.status room)]> (rooms st)) st,
           [room_update roomId ps])) as ->.
  { destruct (toggle_ready_inv now1 sid roomId st)
      as [[_ H]|(room' & i' & p' & Hl' & Hf' & H)].
    { specialize (H room Hl). congruence. }
    rewrite Hl in Hl'. injection Hl' as <-. rewrite Hf in Hf'.
    injection Hf' as <- <-. cbv zeta in H. fold ps in H.
    by destruct H as [[? _]|[_ ->]]. }
  cbn [fst].
  pose proof (find_player_Some _ _ _ _ Hf) as [Hi Hid].
  assert (find_player sid ps = Some (i, toggle p)) as Hf2
    by (by eapply find_player_insert_same).
  assert (<[i := toggle (toggle p)]> ps = Room.players room) as Hback.
  { unfold ps. rewrite list_insert_insert_eq. apply list_insert_id.
    rewrite Hi. f_equal. destruct p as [? ? []]; reflexivity. }
  unfold toggle_ready. cbn [rooms with_rooms].
  rewrite lookup_insert_eq. cbn [Room.players with_players Room.status].
  rewrite Hf2, Hback, insert_insert_eq.
  assert (with_players (Room.players room) (Room.mk ps (Room.status room)) = room)
    as -> by (by destruct room).
  rewrite (insert_id _ _ _ Hl).
  rewrite (checkAndStartGame_idle _ _ _ _ Hl Hn2).
  unfold with_rooms. cbn [timers]. by destruct st.
Qed.

Lemma toggle_ready_twice_witness :
  let st := state_after scenario_joined in
  let room := Room.mk [agent "a" "Agent a" false 0 "ALIVE";
                       agent "b" "Bob" false 0 "ALIVE"] LOBBY in
  rooms st !! "R" = Some room ∧
  find_player "a" (Room.players room) =
    Some (0%nat, agent "a" "Agent a" false 0 "ALIVE") ∧
  toggle_ready 3 "a" "R" (toggle_ready 2 "a" "R" st).1 =
    (st, [room_update "R" (Room.players room)]).
Proof.
  intros st room.
  assert (rooms st !! "R" = Some room) as Hl by (vm_compute; reflexivity).
  assert (find_player "a" (Room.players room) =
          Some (0%nat, agent "a" "Agent a" false 0 "ALIVE")) as Hf
    by (vm_compute; reflexivity).
  split; [exact Hl|]. split; [exact Hf|].
  apply (toggle_ready_twice 2 3 "a" "R" st room _ _ Hl Hf).
  - intros (_ & Hall & _). apply Forall_cons in Hall as [_ Hall].
    apply Forall_cons in Hall as [Hb _]. discriminate Hb.
  - intros (_ & Hall & _). apply Forall_cons in Hall as [Ha _]. discriminate Ha.
Defined.

(** ** Score and status reports *)

(** X6: score and status are last-write-wins: in a room that is not
    PLAYING, two update_player in a row from the same player give the
    state and the event of the second one alone. *)
Theorem update_player_last_write_wins
    now1 now2 sid roomId score1 status1 score2 status2 st room i p :
  rooms st !! roomId = Some room →
  find_player sid (Room.players room) = Some (i, p) →
  Room.status room ≠ PLAYING →
  update_player now2 sid roomId score2 status2
      (update_player now1 sid roomId score1 status1 st).1 =
    update_player now2 sid roomId score2 status2 st.
Proof.
  intros Hl Hf Hs.
  pose proof (find_player_Some _ _ _ _ Hf) as [Hi Hid].
  assert (∀ now score status (st' : State) room' q,
    rooms st' !! roomId = Some room' →
    find_player sid (Room.players room') = Some (i, q) →
    Room.status room' ≠ PLAYING →
    update_player now sid roomId score status st' =
      (with_rooms (<[roomId := Room.mk (<[i := set_state score status q]>
                                          (Room.players room'))
                                       (Room.status room')]> (rooms st')) st',
       [player_updated roomId (set_state score status q)])) as Hstep.
  { intros now score status st' room' q Hl' Hf' Hs'. unfold update_player.
    rewrite Hl', Hf'. cbn zeta.
    by rewrite (bool_decide_eq_false_2 _ Hs'), andb_false_r. }
  rewrite (Hstep now1 score1 status1 st room p Hl Hf Hs). cbn [fst].
  erewrite (Hstep now2 score2 status2 _ _ (set_state score1 status1 p));
    [| apply lookup_insert_eq | by eapply find_player_insert_same | done].
  rewrite (Hstep now2 score2 status2 st room p Hl Hf Hs).
  cbn [rooms with_rooms Room.players Room.status].
  rewrite insert_insert_eq, list_insert_insert_eq. done.
Qed.

Lemma update_player_last_write_wins_witness :
  let st := state_after scenario_joined in
  let room := Room.mk [agent "a" "Agent a" false 0 "ALIVE";
                       agent "b" "Bob" false 0 "ALIVE"] LOBBY in
  rooms st !! "R" = Some room ∧
  find_player "b" (Room.players room) =
    Some (1%nat, agent "b" "Bob" false 0 "ALIVE") ∧
  Room.status room ≠ PLAYING ∧
  update_player 3 "b" "R" 7 "DEAD" (update_player 2 "b" "R" 30 "FINISHED" st).1 =
    update_player 3 "b" "R" 7 "DEAD" st.
Proof.
  intros st room.
  assert (rooms st !! "R" = Some room) as Hl by (vm_compute; reflexivity).
  assert (find_player "b" (Room.players room) =
          Some (1%nat, agent "b" "Bob" false 0 "ALIVE")) as Hf
    by (vm_compute; reflexivity).
  assert (Room.status room ≠ PLAYING) as Hs by discriminate.
  split; [exact Hl|]. split; [exact Hf|]. split; [exact Hs|].
  exact (update_player_last_write_wins 2 3 "b" "R" 30 "FINISHED" 7 "DEAD"
           st room _ _ Hl Hf Hs).
Defined.

(** ** What a player can change *)

Lemma rewrite_in_place sid (ps : list Player.t) i p p' j q :
  ps !! i = Some p → Player.id p = sid →
  Player.id p' = Player.id p → Player.name p' = Player.name p →
  ps !! j = Some q →
  ∃ q', <[i := p']> ps !! j = Some q' ∧
        Player.id q' = Player.id q ∧ Player.name q' = Player.name q ∧
        (Player.id q ≠ sid → q' = q).
Proof.
  intros Hi Hid Hid' Hname Hj. destruct (decide (i = j)) as [<-|Hne].
  - exists p'. rewrite list_lookup_insert_eq by (by eapply lookup_lt_Some).
    rewrite Hi in Hj. injection Hj as <-. by split_and!.
  - exists q. by rewrite list_lookup_insert_ne.
Qed.

(** X7: toggle_ready and update_player keep every room of the registry,
    the length and order of its player list, and the id and name of
    every entry; an entry whose id is not the requester's is left
    exactly as it was. *)
Theorem requests_change_only_own_entry now inp sid roomId st k r :
  (inp = ToggleReady sid roomId ∨
   ∃ score status, inp = UpdatePlayer sid roomId score status) →
  rooms st !! k = Some r →
  ∃ r', rooms (handle now inp st).1 !! k = Some r' ∧
        length (Room.players r') = length (Room.players r) ∧
        ∀ j q, Room.players r !! j = Some q →
          ∃ q', Room.players r' !! j = Some q' ∧
                Player.id q' = Player.id q ∧ Player.name q' = Player.name q ∧
                (Player.id q ≠ sid → q' = q).
Proof.
  intros Hinp Hr.
  assert (∀ room i p p' s,
    rooms st !! roomId = Some room →
    find_player sid (Room.players room) = Some (i, p) →
    Player.id p' = Player.id p → Player.name p' = Player.name p →
    ∃ r', <[roomId := Room.mk (<[i := p']> (Room.players room)) s]> (rooms st)
            !! k = Some r' ∧
          length (Room.players r') = length (Room.players r) ∧
          ∀ j q, Room.players r !! j = Some q →
            ∃ q', Room.players r' !! j = Some q' ∧
                  Player.id q' = Player.id q ∧ Player.name q' = Player.name q ∧
                  (Player.id q ≠ sid → q' = q)) as Hcase.
  { intros room i p p' s Hl [Hi Hid]%find_player_Some Hid' Hname.
    destruct (decide (roomId = k)) as [->|Hne].
    - rewrite lookup_insert_eq. eexists. split; [done|]. cbn.
      rewrite Hl in Hr. injection Hr as <-. split; [apply length_insert|].
      intros j q Hj. by eapply rewrite_in_place.
    - rewrite lookup_insert_ne by done. exists r. split_and!; [done..|]. eauto. }
  assert (∃ r', rooms st !! k = Some r' ∧
          length (Room.players r') = length (Room.players r) ∧
          ∀ j q, Room.players r !! j = Some q →
            ∃ q', Room.players r' !! j = Some q' ∧
                  Player.id q' = Player.id q ∧ Player.name q' = Player.name q ∧
                  (Player.id q ≠ sid → q' = q)) as Hsame
    by (exists r; split_and!; eauto).
  destruct Hinp as [->|(score & status & ->)]; cbn [handle].
  - destruct (toggle_ready_inv now sid roomId st)
      as [[-> _]|(room & i & p & Hl & Hf & H)]; [done|].
    cbv zeta in H. destruct H as [[_ ->]|[_ ->]]; cbn [fst rooms with_rooms];
      by eapply Hcase.
  - destruct (update_player_inv now sid roomId score status st)
      as [[-> _]|(room & i & p & Hl & Hf & H)]; [done|].
    cbv zeta in H. destruct H as [(_ & _ & ->)|[_ ->]];
      cbn [fst rooms with_rooms]; by eapply Hcase.
Qed.

Lemma requests_change_only_own_entry_witness :
  let st := state_after scenario_started in
  let r := Room.mk [agent "a" "Agent a" true 0 "ALIVE";
                    agent "b" "Bob" true 0 "ALIVE"] PLAYING in
  rooms st !! "R" = Some r ∧
  ∃ r', rooms (handle 4 (UpdatePlayer "a" "R" 5 "FINISHED") st).1 !! "R" = Some r' ∧
        Room.players r' !! 1%nat = Some (agent "b" "Bob" true 0 "ALIVE").
Proof.
  intros st r.
  assert (rooms st !! "R" = Some r) as Hl by (vm_compute; reflexivity).
  split; [exact Hl|].
  destruct (requests_change_only_own_entry 4 (UpdatePlayer "a" "R" 5 "FINISHED")
              "a" "R" st "R" r) as (r' & Hr' & _ & Hq); [eauto | exact Hl |].
  exists r'. split; [exact Hr'|].
  destruct (Hq 1%nat (agent "b" "Bob" true 0 "ALIVE") eq_refl)
    as (q' & Hq' & _ & _ & Heq).
  rewrite Hq'. f_equal. apply Heq. discriminate.
Defined.

(** ** Kicks and the captain *)

(** X8: kick_player never removes the entry at index 0: every room has
    the same first player and the same status after a kick_player as
    before, whoever sends it and whatever the target. *)
Theorem kick_player_keeps_captain sid roomId targetId st k r :
  rooms st !! k = Some r →
  ∃ r', rooms (kick_player sid roomId targetId st).1 !! k = Some r' ∧
        head (Room.players r') = head (Room.players r) ∧
        Room.status r' = Room.status r.
Proof.
  intros Hr.
  destruct (kick_player_inv sid roomId targetId st)
    as [->|(room & captain & rest & i & p & Hl & Hps & Hc & Hne & Hf & H)];
    [by exists r|].
  cbv zeta in H. rewrite H. cbn [fst rooms with_rooms].
  destruct (decide (roomId = k)) as [->|Hk].
  - rewrite lookup_insert_eq. eexists. split; [done|]. cbn.
    rewrite Hl in Hr. injection Hr as <-. split; [|done].
    apply find_player_Some in Hf as [Hi Hid]. rewrite Hps in *.
    destruct i as [|i]; [|done].
    cbn in Hi. injection Hi as <-. congruence.
  - rewrite lookup_insert_ne by done. by exists r.
Qed.

Lemma kick_player_keeps_captain_witness :
  let st := state_after scenario_joined in
  let r := Room.mk [agent "a" "Agent a" false 0 "ALIVE";
                    agent "b" "Bob" false 0 "ALIVE"] LOBBY in
  rooms st !! "R" = Some r ∧
  ∃ r', rooms (kick_player "a" "R" "b" st).1 !! "R" = Some r' ∧
        head (Room.players r') = Some (agent "a" "Agent a" false 0 "ALIVE").
Proof.
  intros st r.
  assert (rooms st !! "R" = Some r) as Hl by (vm_compute; reflexivity).
  split; [exact Hl|].
  destruct (kick_player_keeps_captain "a" "R" "b" st "R" r Hl)
    as (r' & Hr' & Hh & _).
  exists r'. split; [exact Hr' | exact Hh].
Defined.

(** ** The reset callback *)

(** X9: the reset callback is idempotent: run a second time for the
    same room it changes nothing and emits nothing, whatever the first
    run did. *)
Theorem reset_action_idempotent roomId st :
  reset_action roomId (reset_action roomId st).1 =
    ((reset_action roomId st).1, []).
Proof.
  destruct (reset_action_inv roomId st)
    as [[H _]|(room & Hl & Hs & H)].
  - rewrite H. cbn [fst]. exact H.
  - destruct (Room.players room) as [|captain others]; rewrite H; cbn [fst];
      unfold reset_action; cbn [rooms with_rooms].
    + by rewrite lookup_delete_eq.
    + by rewrite lookup_insert_eq.
Qed.

(** ** Rooms are independent *)

(** X10: an input that names a room (join_room, toggle_ready,
    kick_player, update_player, or the firing of that room's timer)
    leaves every other room of the registry exactly as it was. *)
Theorem handlers_touch_one_room now inp st roomId k :
  input_room st inp = Some roomId → k ≠ roomId →
  rooms (handle now inp st).1 !! k = rooms st !! k.
Proof.
  intros Hin Hk.
  assert (∀ r, <[roomId := r]> (rooms st) !! k = rooms st !! k) as Hins
    by (intros r; by rewrite lookup_insert_ne).
  destruct inp as [sid rid name|sid rid|sid rid targetId
                  |sid rid score status|sid|n]; cbn in Hin; cbn [handle];
    try (injection Hin as ->); [..|done|].
  - destruct (join_room_inv now sid roomId name st)
      as [(room & msg & _ & _ & ->)|H]; [done|].
    cbv zeta in H. destruct H as (_ & _ & ->). apply Hins.
  - destruct (toggle_ready_inv now sid roomId st)
      as [[-> _]|(room & i & p & _ & _ & H)]; [done|].
    cbv zeta in H. destruct H as [[_ ->]|[_ ->]]; apply Hins.
  - destruct (kick_player_inv sid roomId targetId st)
      as [->|(room & captain & rest & i & p & _ & _ & _ & _ & _ & H)]; [done|].
    cbv zeta in H. rewrite H. apply Hins.
  - destruct (update_player_inv now sid roomId score status st)
      as [[-> _]|(room & i & p & _ & _ & H)]; [done|].
    cbv zeta in H. destruct H as [(_ & _ & ->)|[_ ->]]; apply Hins.
  - destruct (fire_inv now n st) as [->|(t & Ht & _ & ->)]; [done|].
    rewrite Ht in Hin. injection Hin as Hin. rewrite Hin.
    destruct (reset_action_inv roomId (mkState (rooms st) (delete n (timers st))))
      as [[-> _]|(room & _ & _ & H)]; [done|].
    destruct (Room.players room); rewrite H; cbn [fst rooms with_rooms].
    + by rewrite lookup_delete_ne.
    + apply Hins.
Qed.

Lemma handlers_touch_one_room_witness :
  let st := state_after (scenario_started ++ [(4, JoinRoom "c" "S" None)]) in
  input_room st (UpdatePlayer "c" "S" 9 "DEAD") = Some "S" ∧
  "R" ≠ "S" ∧
  rooms (handle 5 (UpdatePlayer "c" "S" 9 "DEAD") st).1 !! "R" = rooms st !! "R".
Proof.
  intros st.
  assert ("R" ≠ "S") as Hne by discriminate.
  split; [reflexivity|]. split; [exact Hne|].
  exact (handlers_touch_one_room 5 (UpdatePlayer "c" "S" 9 "DEAD") st "S" "R"
           eq_refl Hne).
Defined.

(** ** The life cycle of a room *)

(** X11: how one input moves the status of a room that is in the
    registry before and after it: join_room, kick_player and disconnect
    never change it; toggle_ready can only take a room that is not
    PLAYING to PLAYING; update_player can only take PLAYING to
    GAME_OVER; the timer can only take GAME_OVER to LOBBY.  So a room
    never goes from LOBBY to GAME_OVER nor from PLAYING to LOBBY in one
    step. *)
Theorem status_moves now inp st k r r' :
  rooms st !! k = Some r →
  rooms (handle now inp st).1 !! k = Some r' →
  status_step (Room.status r) (Room.status r') = true ∧
  match inp with
  | JoinRoom _ _ _ | KickPlayer _ _ _ | Disconnect _ =>
      Room.status r' = Room.status r
  | ToggleReady _ _ =>
      Room.status r' = Room.status r ∨
      (Room.status r ≠ PLAYING ∧ Room.status r' = PLAYING)
  | UpdatePlayer _ _ _ _ =>
      Room.status r' = Room.status r ∨
      (Room.status r = PLAYING ∧ Room.status r' = GAME_OVER)
  | TimerFires _ =>
      Room.status r' = Room.status r ∨
      (Room.status r = GAME_OVER ∧ Room.status r' = LOBBY)
  end.
Proof.
  intros Hr Hr'.
  assert (∀ roomId ps s,
    <[roomId := Room.mk ps s]> (rooms st) !! k = Some r' →
    Room.status r' = Room.status r ∨ (roomId = k ∧ Room.status r' = s)) as Hins.
  { intros roomId ps s. destruct (decide (roomId = k)) as [->|Hne].
    - rewrite lookup_insert_eq. intros [= <-]. by right.
    - rewrite lookup_insert_ne by done. intros. left. congruence. }
  assert (match inp with
    | JoinRoom _ _ _ | KickPlayer _ _ _ | Disconnect _ =>
        Room.status r' = Room.status r
    | ToggleReady _ _ =>
        Room.status r' = Room.status r ∨
        (Room.status r ≠ PLAYING ∧ Room.status r' = PLAYING)
    | UpdatePlayer _ _ _ _ =>
        Room.status r' = Room.status r ∨
        (Room.status r = PLAYING ∧ Room.status r' = GAME_OVER)
    | TimerFires _ =>
        Room.status r' = Room.status r ∨
        (Room.status r = GAME_OVER ∧ Room.status r' = LOBBY)
    end) as H.
  { destruct inp as [sid roomId name|sid roomId|sid roomId targetId
                    |sid roomId score status|sid|n]; cbn [handle] in Hr'.
    - destruct (join_room_inv now sid roomId name st)
        as [(room & msg & _ & _ & Hj)|Hj].
      + rewrite Hj in Hr'. cbn in Hr'. congruence.
      + cbv zeta in Hj. destruct Hj as (_ & _ & Hj). rewrite Hj in Hr'.
        apply Hins in Hr' as [?|[-> ->]]; [done|].
        unfold roomOrNew. by rewrite Hr.
    - destruct (toggle_ready_inv now sid roomId st)
        as [[Hj _]|(room & i & p & Hl & _ & Hj)].
      + rewrite Hj in Hr'. cbn in Hr'. left. congruence.
      + cbv zeta in Hj.
        destruct Hj as [[(_ & _ & Hs) Hj]|[_ Hj]]; rewrite Hj in Hr';
          apply Hins in Hr' as [?|[-> ->]]; auto.
        * right. split; [|done]. cbn in Hs. congruence.
        * left. congruence.
    - destruct (kick_player_inv sid roomId targetId st)
        as [Hj|(room & captain & rest & i & p & Hl & _ & _ & _ & _ & Hj)].
      + rewrite Hj in Hr'. cbn in Hr'. congruence.
      + cbv zeta in Hj. rewrite Hj in Hr'.
        apply Hins in Hr' as [?|[-> ->]]; [done | congruence].
    - destruct (update_player_inv now sid roomId score status st)
        as [[Hj _]|(room & i & p & Hl & _ & Hj)].
      + rewrite Hj in Hr'. cbn in Hr'. left. congruence.
      + cbv zeta in Hj.
        destruct Hj as [(Hs & _ & Hj)|[_ Hj]]; rewrite Hj in Hr';
          apply Hins in Hr' as [?|[-> ->]]; auto.
        * right. split; [congruence | done].
        * left. congruence.
    - rewrite disconnect_rooms, Hr in Hr'. cbn in Hr'.
      by apply leave_ids in Hr' as [_ ?].
    - destruct (fire_inv now n st) as [Hj|(t & _ & _ & Hj)].
      + rewrite Hj in Hr'. cbn in Hr'. left. congruence.
      + rewrite Hj in Hr'.
        destruct (reset_action_inv (timer_room t)
                    (mkState (rooms st) (delete n (timers st))))
          as [[Hk _]|(room & Hl & Hs & Hk)].
        * rewrite Hk in Hr'. cbn in Hr'. left. congruence.
        * cbn [rooms] in Hl.
          destruct (Room.players room); rewrite Hk in Hr';
            cbn [fst rooms with_rooms] in Hr'.
          -- destruct (decide (timer_room t = k)) as [<-|Hne].
             ++ by rewrite lookup_delete_eq in Hr'.
             ++ rewrite lookup_delete_ne in Hr' by done. left. congruence.
          -- apply Hins in Hr' as [?|[Hk' ->]]; [by left|].
             right. split; [congruence | done]. }
  split; [|exact H].
  destruct inp; destruct H as [H|[H1 H2]] || rename H into H';
    try (rewrite H; by destruct (Room.status r));
    try (rewrite H'; by destruct (Room.status r));
    try (rewrite H2; by destruct (Room.status r)).
Qed.

Lemma status_moves_witness :
  let st := state_after scenario_over in
  let r := Room.mk [agent "a" "Agent a" true 5 "FINISHED";
                    agent "b" "Bob" true 7 "DEAD"] GAME_OVER in
  let r' := Room.mk [agent "a" "Agent a" false 0 "ALIVE"] LOBBY in
  rooms st !! "R" = Some r ∧
  rooms (handle 10005 (TimerFires 0) st).1 !! "R" = Some r' ∧
  status_step (Room.status r) (Room.status r') = true.
Proof.
  intros st r r'.
  assert (rooms st !! "R" = Some r) as Hl by (vm_compute; reflexivity).
  assert (rooms (handle 10005 (TimerFires 0) st).1 !! "R" = Some r') as Hl'
    by (vm_compute; reflexivity).
  split; [exact Hl|]. split; [exact Hl'|].
  exact (proj1 (status_moves 10005 (TimerFires 0) st "R" r r' Hl Hl')).
Defined.

(** ** No empty room *)

Lemma handle_populated now inp st : populated st → populated (handle now inp st).1.
Proof.
  intros Hp k r' Hr'.
  assert (∀ r, ids r' = ids r → Room.players r ≠ [] → Room.players r' ≠ [])
    as Hids.
  { intros r Hi Hne Hnil. unfold ids in Hi. rewrite Hnil in Hi. cbn in Hi.
    symmetry in Hi. by apply fmap_nil_inv in Hi. }
  destruct inp as [sid roomId name|sid roomId|sid roomId targetId
                  |sid roomId score status|sid|n]; cbn [handle] in Hr'.
  - apply join_room_lookup in Hr' as [Hr|(_ & _ & ->)]; [by eapply Hp|].
    by intros [_ ?]%app_nil.
  - apply toggle_ready_lookup in Hr' as (r & Hr & Hi). eauto.
  - destruct (kick_player_inv sid roomId targetId st)
      as [Hj|(room & captain & rest & i & p & Hl & Hps & Hc & Hne & Hf & Hj)].
    + rewrite Hj in Hr'. by eapply Hp.
    + cbv zeta in Hj. rewrite Hj in Hr'. cbn [fst rooms with_rooms] in Hr'.
      destruct (decide (roomId = k)) as [->|Hk].
      * rewrite lookup_insert_eq in Hr'. injection Hr' as <-. cbn.
        apply find_player_Some in Hf as [Hi Hid]. rewrite Hps in *.
        destruct i as [|i]; [|done].
        cbn in Hi. injection Hi as <-. congruence.
      * rewrite lookup_insert_ne in Hr' by done. by eapply Hp.
  - apply update_player_lookup in Hr' as (r & Hr & Hi). eauto.
  - rewrite disconnect_rooms in Hr'.
    destruct (rooms st !! k) as [r|] eqn:Hr; [|done]. cbn in Hr'.
    unfold leave in Hr'.
    destruct (find_player sid (Room.players r)) as [[i p]|].
    + cbn zeta in Hr'. case_bool_decide as Hlen; [done|].
      injection Hr' as <-. cbn. intros Hnil. by rewrite Hnil in Hlen.
    + injection Hr' as <-. by eapply Hp.
  - destruct (fire_inv now n st) as [Hj|(t & _ & _ & Hj)].
    + rewrite Hj in Hr'. by eapply Hp.
    + rewrite Hj in Hr'.
      destruct (reset_action_inv (timer_room t)
                  (mkState (rooms st) (delete n (timers st))))
        as [[Hk _]|(room & Hl & Hs & Hk)].
      * rewrite Hk in Hr'. by eapply Hp.
      * destruct (Room.players room); rewrite Hk in Hr';
          cbn [fst rooms with_rooms] in Hr'.
        -- apply lookup_delete_Some in Hr' as [_ Hr']. by eapply Hp.
        -- destruct (decide (timer_room t = k)) as [<-|Hne].
           ++ rewrite lookup_insert_eq in Hr'. by injection Hr' as <-.
           ++ rewrite lookup_insert_ne in Hr' by done. by eapply Hp.
Qed.

(** X12: no reachable state has a room without players: a room is
    created with its first player, the captain cannot be kicked, and
    disconnect and the reset delete a room rather than leave it empty.
    So in reachable states players[0] always exists. *)
Theorem no_empty_room st :
  reachable st → ∀ k r, rooms st !! k = Some r → Room.players r ≠ [].
Proof.
  induction 1 as [|st now inp _ IH]; [by intros k r ?|].
  by apply handle_populated.
Qed.

Lemma no_empty_room_witness :
  let st := state_after (scenario_over ++ [(6, Disconnect "a")]) in
  reachable st ∧ ∀ k r, rooms st !! k = Some r → Room.players r ≠ [].
Proof.
  intros st.
  assert (reachable st) as Hr by apply reachable_run, reachable_init.
  split; [exact Hr | exact (no_empty_room st Hr)].
Defined.

(** ** Disconnecting twice *)

Lemma disconnect_not_member sid st :
  (∀ k r, rooms st !! k = Some r → sid ∉ ids r) →
  disconnect sid st = (st, []).
Proof.
  intros Hn.
  assert (∀ k r, rooms st !! k = Some r →
                 find_player sid (Room.players r) = None) as Hf.
  { intros k r Hr. apply find_player_None. by eapply Hn. }
  destruct (disconnect sid st) as [st' evs] eqn:Hd. f_equal.
  - assert (rooms st' = rooms st) as Hrs.
    { apply map_eq. intros k.
      change st' with (st', evs).1. rewrite <-Hd, disconnect_rooms.
      destruct (rooms st !! k) as [r|] eqn:Hr; [|done]. cbn.
      unfold leave. by rewrite (Hf k r Hr). }
    assert (timers st' = timers st) as Hts.
    { change st' with (st', evs).1. rewrite <-Hd. apply disconnect_timers. }
    destruct st, st'. cbn in *. by subst.
  - apply elem_of_nil_inv. intros e He.
    change evs with (st', evs).2 in He. rewrite <-Hd in He.
    apply disconnect_events in He as (k & r & Hr & He).
    unfold leave_events in He. rewrite (Hf k r Hr) in He.
    by apply elem_of_nil in He.
Qed.

(** X13: when the ids of every room are pairwise distinct, a
    disconnect leaves the connection in no room, and a second
    disconnect of the same connection changes nothing and emits
    nothing. *)
Theorem disconnect_twice sid st :
  unique_ids st →
  (∀ k r, rooms (disconnect sid st).1 !! k = Some r → sid ∉ ids r) ∧
  disconnect sid (disconnect sid st).1 = ((disconnect sid st).1, []).
Proof.
  intros Hu.
  assert (∀ k r, rooms (disconnect sid st).1 !! k = Some r → sid ∉ ids r)
    as Hgone.
  { intros k r'. rewrite disconnect_rooms.
    destruct (rooms st !! k) as [r|] eqn:Hr; [|done]. cbn. unfold leave.
    destruct (find_player sid (Room.players r)) as [[i p]|] eqn:Hf.
    - cbn zeta. case_bool_decide; [done|]. intros [= <-].
      apply find_player_Some in Hf as [Hi <-]. unfold ids. cbn.
      rewrite list_fmap_delete. apply NoDup_delete_not_elem.
      + by apply (Hu k r).
      + by rewrite list_lookup_fmap, Hi.
    - intros [= <-]. by apply find_player_None. }
  split; [exact Hgone | by apply disconnect_not_member].
Qed.

Lemma disconnect_twice_witness :
  let st := state_after scenario_started in
  unique_ids st ∧
  disconnect "b" (disconnect "b" st).1 = ((disconnect "b" st).1, []).
Proof.
  intros st.
  assert (unique_ids st) as Hu.
  { intros k r Hr. destruct (decide (k = "R")) as [->|Hne].
    - vm_compute in Hr. injection Hr as <-. vm_compute.
      repeat constructor; intros H;
        repeat (apply elem_of_cons in H as [H|H]; [discriminate H|]);
        by apply elem_of_nil in H.
    - exfalso. unfold st, state_after in Hr.
      assert ((run scenario_started init).1 =
              mkState {["R" := Room.mk [agent "a" "Agent a" true 0 "ALIVE";
                                        agent "b" "Bob" true 0 "ALIVE"] PLAYING]}
                      []) as E by (vm_compute; reflexivity).
      rewrite E in Hr. cbn [rooms] in Hr.
      by rewrite lookup_singleton_ne in Hr. }
  split; [exact Hu | exact (proj2 (disconnect_twice "b" st Hu))].
Defined.

(** ** A reset is pending for every finished game *)

Lemma elem_of_delete_ne {A} (l : list A) n x y :
  x ∈ l → l !! n = Some y → x ≠ y → x ∈ delete n l.
Proof.
  intros [j Hj]%list_elem_of_lookup Hn Hne.
  destruct (decide (j < n)%nat) as [Hlt|Hge].
  - apply list_elem_of_lookup. exists j. by rewrite list_lookup_delete_lt.
  - assert (j ≠ n) by (intros ->; congruence).
    apply list_elem_of_lookup. exists (j - 1)%nat.
    rewrite list_lookup_delete_ge by lia.
    by replace (S (j - 1)) with j by lia.
Qed.

Lemma handle_reset_pending now inp st :
  reset_pending st → reset_pending (handle now inp st).1.
Proof.
  intros Hp k r' Hr' Hs'.
  assert (∀ roomId ps s,
    <[roomId := Room.mk ps s]> (rooms st) !! k = Some r' →
    (rooms st !! k = Some r' ∧ roomId ≠ k) ∨ (roomId = k ∧ s = GAME_OVER)) as Hins.
  { intros roomId ps s. destruct (decide (roomId = k)) as [->|Hne].
    - rewrite lookup_insert_eq. intros [= <-]. by right.
    - rewrite lookup_insert_ne by done. by left. }
  destruct inp as [sid roomId name|sid roomId|sid roomId targetId
                  |sid roomId score status|sid|n]; cbn [handle] in *.
  - destruct (join_room_inv now sid roomId name st)
      as [(room & msg & _ & _ & Hj)|Hj].
    + rewrite Hj in *. by eapply Hp.
    + cbv zeta in Hj. destruct Hj as (_ & _ & Hj). rewrite Hj in *.
      cbn [fst rooms with_rooms timers] in *.
      apply Hins in Hr' as [[Hr _]|[-> Hs]]; [by eapply Hp|].
      unfold roomOrNew in Hs.
      destruct (rooms st !! k) as [r|] eqn:Hr; [by eapply Hp | done].
  - destruct (toggle_ready_inv now sid roomId st)
      as [[Hj _]|(room & i & p & Hl & _ & Hj)].
    + rewrite Hj in *. by eapply Hp.
    + cbv zeta in Hj.
      destruct Hj as [[_ Hj]|[_ Hj]]; rewrite Hj in *;
        cbn [fst rooms with_rooms timers] in *;
        (apply Hins in Hr' as [[Hr _]|[-> Hs]]; [by eapply Hp|]);
        [done | by eapply Hp].
  - destruct (kick_player_inv sid roomId targetId st)
      as [Hj|(room & captain & rest & i & p & Hl & _ & _ & _ & _ & Hj)].
    + rewrite Hj in *. by eapply Hp.
    + cbv zeta in Hj. rewrite Hj in *. cbn [fst rooms with_rooms timers] in *.
      apply Hins in Hr' as [[Hr _]|[-> Hs]]; by eapply Hp.
  - destruct (update_player_inv now sid roomId score status st)
      as [[Hj _]|(room & i & p & Hl & _ & Hj)].
    + rewrite Hj in *. by eapply Hp.
    + cbv zeta in Hj.
      destruct Hj as [(_ & _ & Hj)|[_ Hj]]; rewrite Hj in *;
        cbn [fst rooms with_rooms timers] in *.
      * apply Hins in Hr' as [[Hr _]|[-> _]].
        -- destruct (Hp k r' Hr Hs') as (t & Ht & Hk).
           exists t. split; [|done]. apply elem_of_app. by left.
        -- exists (mkTimer (now + LEADERBOARD_DURATION) k).
           split; [|done]. apply elem_of_app. right. apply list_elem_of_here.
      * apply Hins in Hr' as [[Hr _]|[-> Hs]]; by eapply Hp.
  - rewrite disconnect_timers. rewrite disconnect_rooms in Hr'.
    destruct (rooms st !! k) as [r|] eqn:Hr; [|done]. cbn in Hr'.
    apply leave_ids in Hr' as [_ Hs]. eapply Hp; [done | congruence].
  - destruct (fire_inv now n st) as [Hj|(t & Ht & _ & Hj)].
    + rewrite Hj in *. by eapply Hp.
    + rewrite Hj in *.
      assert (∀ r, rooms st !! k = Some r → Room.status r = GAME_OVER →
                   timer_room t ≠ k →
                   ∃ t0, t0 ∈ delete n (timers st) ∧ timer_room t0 = k) as Hrest.
      { intros r Hr Hs Hne. destruct (Hp k r Hr Hs) as (t0 & Ht0 & Hk).
        exists t0. split; [|done]. eapply elem_of_delete_ne; [done..|].
        intros ->. congruence. }
      destruct (reset_action_inv (timer_room t)
                  (mkState (rooms st) (delete n (timers st))))
        as [[Hk Hno]|(room & Hl & Hs & Hk)]; cbn [rooms] in *.
      * rewrite Hk in *. cbn [fst rooms timers] in *.
        eapply Hrest; [done..|]. intros Heq. rewrite Heq in Hno.
        by apply (Hno r').
      * destruct (Room.players room); rewrite Hk in *;
          cbn [fst rooms with_rooms timers] in *.
        -- apply lookup_delete_Some in Hr' as [Hne Hr']. by eapply Hrest.
        -- apply Hins in Hr' as [[Hr Hne]|[_ ?]]; [by eapply Hrest | done].
Qed.

(** X14: in every reachable state each room in GAME_OVER has a timer
    pending whose callback is the reset of that room: the timer is set
    when GAME_OVER is entered, and it leaves the pending list only by
    firing, which takes the room out of GAME_OVER. *)
Theorem game_over_has_reset_pending st :
  reachable st →
  ∀ k r, rooms st !! k = Some r → Room.status r = GAME_OVER →
         ∃ t, t ∈ timers st ∧ timer_room t = k.
Proof.
  induction 1 as [|st now inp _ IH]; [by intros k r ?|].
  by apply handle_reset_pending.
Qed.

Lemma game_over_has_reset_pending_witness :
  let st := state_after scenario_over in
  reachable st ∧
  rooms st !! "R" = Some (Room.mk [agent "a" "Agent a" true 5 "FINISHED";
                                   agent "b" "Bob" true 7 "DEAD"] GAME_OVER) ∧
  ∃ t, t ∈ timers st ∧ timer_room t = "R".
Proof.
  intros st.
  assert (reachable st) as Hr by apply reachable_run, reachable_init.
  assert (rooms st !! "R" =
          Some (Room.mk [agent "a" "Agent a" true 5 "FINISHED";
                         agent "b" "Bob" true 7 "DEAD"] GAME_OVER)) as Hl
    by (vm_compute; reflexivity).
  split; [exact Hr|]. split; [exact Hl|].
  exact (game_over_has_reset_pending st Hr "R" _ Hl eq_refl).
Defined.

(** ** Ids and names are fixed at join *)





(** ** Every event is accounted for *)

Ltac event_in H :=
  repeat (apply elem_of_cons in H as [H|H]; [subst|]);
  try (by apply elem_of_nil in H).

(** What the presence of an event among those of one step tells about
    the input and the states around it. *)
Lemma handle_event now inp st e :
  e ∈ (handle now inp st).2 →
  match e with
  | error_msg to msg =>
      ∃ roomId name room,
        inp = JoinRoom to roomId name ∧ rooms st !! roomId = Some room ∧
        (Room.status room = PLAYING ∨
         (REQUIRED_PLAYERS ≤ length (Room.players room))%nat) ∧
        handle now inp st = (st, [error_msg to msg])
  | room_update k ps =>
      ∃ r', rooms (handle now inp st).1 !! k = Some r' ∧ Room.players r' = ps
  | start_game k t =>
      t = now + 3000 ∧ (∃ sid, inp = ToggleReady sid k) ∧
      ∃ r r', rooms st !! k = Some r ∧ Room.status r ≠ PLAYING ∧
              rooms (handle now inp st).1 !! k = Some r' ∧
              Room.status r' = PLAYING ∧
              length (Room.players r') = REQUIRED_PLAYERS ∧
              Forall (λ q, Player.isReady q = true) (Room.players r')
  | player_updated k p =>
      ∃ sid score status r',
        inp = UpdatePlayer sid k score status ∧
        Player.id p = sid ∧ Player.score p = score ∧ Player.status p = status ∧
        rooms (handle now inp st).1 !! k = Some r' ∧ p ∈ Room.players r'
  | force_game_over k ps t =>
      t = now + LEADERBOARD_DURATION ∧
      (∃ sid score status, inp = UpdatePlayer sid k score status) ∧
      (∃ r, rooms st !! k = Some r ∧ Room.status r = PLAYING) ∧
      rooms (handle now inp st).1 !! k = Some (Room.mk ps GAME_OVER) ∧
      Forall (λ q, Player.status q = "DEAD" ∨ Player.status q = "FINISHED") ps ∧
      timers (handle now inp st).1 = timers st ++ [mkTimer t k]
  | kicked x =>
      ∃ k r j, rooms st !! k = Some r ∧ ids r !! S j = Some x
  end.
Proof.
  intros He.
  destruct inp as [sid roomId name|sid roomId|sid roomId targetId
                  |sid roomId score status|sid|n]; cbn [handle] in *.
  - destruct (join_room_inv now sid roomId name st)
      as [(room & msg & Hl & Hwhy & Hj)|Hj].
    + rewrite Hj in *. event_in He. by exists roomId, name, room.
    + cbv zeta in Hj. destruct Hj as (_ & _ & Hj). rewrite Hj in *.
      event_in He. cbn. rewrite lookup_insert_eq. by eexists.
  - destruct (toggle_ready_inv now sid roomId st)
      as [[Hj _]|(room & i & p & Hl & Hf & Hj)].
    + rewrite Hj in He. event_in He.
    + cbv zeta in Hj.
      destruct Hj as [[(Hlen & Hall & Hs) Hj]|[_ Hj]]; rewrite Hj in *;
        event_in He; cbn; rewrite ?lookup_insert_eq.
      * by eexists.
      * split_and!; [done | by exists sid |]. by eexists room, _.
      * by eexists.
  - destruct (kick_player_inv sid roomId targetId st)
      as [Hj|(room & captain & rest & i & p & Hl & Hps & Hc & Hne & Hf & Hj)].
    + rewrite Hj in He. event_in He.
    + cbv zeta in Hj. rewrite Hj in *. event_in He; cbn.
      * apply find_player_Some in Hf as [Hi Hid].
        destruct i as [|i].
        { rewrite Hps in Hi. cbn in Hi. injection Hi as <-. congruence. }
        exists roomId, room, i. split; [done|].
        unfold ids. by rewrite list_lookup_fmap, Hi; cbn; rewrite Hid.
      * rewrite lookup_insert_eq. by eexists.
  - destruct (update_player_inv now sid roomId score status st)
      as [[Hj _]|(room & i & p & Hl & Hf & Hj)].
    + rewrite Hj in He. event_in He.
    + cbv zeta in Hj. pose proof (find_player_Some _ _ _ _ Hf) as [Hi Hid].
      assert (set_state score status p ∈
              <[i := set_state score status p]> (Room.players room)) as Hin.
      { apply list_elem_of_insert. by eapply lookup_lt_Some. }
      destruct Hj as [(Hs & Hd & Hj)|[_ Hj]]; rewrite Hj in *;
        event_in He; cbn; rewrite ?lookup_insert_eq.
      * eexists _, _, _, _. by split_and!.
      * split_and!; [done | by eexists _, _, _ | by exists room | done..].
      * eexists _, _, _, _. by split_and!.
  - apply disconnect_events in He as (k & room & Hl & He).
    unfold leave_events in He.
    destruct (find_player sid (Room.players room)) as [[i p]|] eqn:Hf;
      [|by apply elem_of_nil in He].
    cbn zeta in He. case_bool_decide as Hlen; [by apply elem_of_nil in He|].
    event_in He. rewrite disconnect_rooms, Hl. cbn. unfold leave.
    rewrite Hf. cbn zeta. rewrite (bool_decide_eq_false_2 _ Hlen).
    by eexists.
  - destruct (fire_inv now n st) as [Hj|(t & _ & _ & Hj)].
    + rewrite Hj in He. event_in He.
    + rewrite Hj in *.
      destruct (reset_action_inv (timer_room t)
                  (mkState (rooms st) (delete n (timers st))))
        as [[Hk _]|(room & Hl & Hs & Hk)]; cbn [rooms] in *.
      * rewrite Hk in He. event_in He.
      * destruct (Room.players room) as [|captain others] eqn:Hps;
          rewrite Hk in *; cbn [fst snd rooms with_rooms] in *;
          [event_in He|].
        apply elem_of_app in He as [He|He].
        -- apply list_elem_of_fmap in He as (q & -> & [j Hq]%list_elem_of_lookup).
           exists (timer_room t), room, j. split; [done|].
           unfold ids. rewrite list_lookup_fmap, Hps.
           change (Player.id <$> others !! j = Some (Player.id q)).
           by rewrite Hq.
        -- event_in He. rewrite lookup_insert_eq. by eexists.
Qed.

(** X16: start_game is emitted only by a toggle_ready, for its own
    room; the room was not PLAYING before and is PLAYING afterwards
    with exactly REQUIRED_PLAYERS players, all of them ready, and the
    start time is now + 3000. *)
Theorem start_game_means_full_and_ready now inp st k t :
  start_game k t ∈ (handle now inp st).2 →
  t = now + 3000 ∧ (∃ sid, inp = ToggleReady sid k) ∧
  ∃ r r', rooms st !! k = Some r ∧ Room.status r ≠ PLAYING ∧
          rooms (handle now inp st).1 !! k = Some r' ∧
          Room.status r' = PLAYING ∧
          length (Room.players r') = REQUIRED_PLAYERS ∧
          Forall (λ q, Player.isReady q = true) (Room.players r').
Proof. intros He. by apply handle_event in He. Qed.

Lemma start_game_means_full_and_ready_witness :
  let st := state_after (scenario_joined ++ [(2, ToggleReady "a" "R")]) in
  start_game "R" 3003 ∈ (handle 3 (ToggleReady "b" "R") st).2 ∧
  ∃ r', rooms (handle 3 (ToggleReady "b" "R") st).1 !! "R" = Some r' ∧
        Room.status r' = PLAYING.
Proof.
  intros st.
  assert (start_game "R" 3003 ∈ (handle 3 (ToggleReady "b" "R") st).2) as He.
  { vm_compute. apply list_elem_of_further, list_elem_of_here. }
  split; [exact He|].
  destruct (start_game_means_full_and_ready 3 (ToggleReady "b" "R") st "R" 3003 He)
    as (_ & _ & r & r' & _ & _ & Hr' & Hs & _).
  exists r'. split; [exact Hr' | exact Hs].
Defined.

(** X17: every room_update carries the player list that the addressed
    room holds once the handler has run, whichever handler emitted it;
    in particular it is never sent for a room that the handler has just
    deleted. *)
Theorem room_update_carries_stored_list now inp st k ps :
  room_update k ps ∈ (handle now inp st).2 →
  ∃ r', rooms (handle now inp st).1 !! k = Some r' ∧ Room.players r' = ps.
Proof. intros He. by apply handle_event in He. Qed.

Lemma room_update_carries_stored_list_witness :
  let st := state_after scenario_started in
  room_update "R" [agent "a" "Agent a" true 0 "ALIVE"]
    ∈ (handle 4 (Disconnect "b") st).2 ∧
  ∃ r', rooms (handle 4 (Disconnect "b") st).1 !! "R" = Some r' ∧
        Room.players r' = [agent "a" "Agent a" true 0 "ALIVE"].
Proof.
  intros st.
  assert (room_update "R" [agent "a" "Agent a" true 0 "ALIVE"]
            ∈ (handle 4 (Disconnect "b") st).2) as He.
  { vm_compute. apply list_elem_of_here. }
  split; [exact He|].
  exact (room_update_carries_stored_list 4 (Disconnect "b") st "R" _ He).
Defined.

(** X18: force_game_over is emitted only by an update_player, for its
    own room, which was PLAYING; the room is then stored in GAME_OVER
    with exactly the broadcast list, every player of which is DEAD or
    FINISHED; the reset time is now + LEADERBOARD_DURATION and the one
    timer added to the pending ones is due at that time for that
    room. *)
Theorem force_game_over_means_all_done now inp st k ps t :
  force_game_over k ps t ∈ (handle now inp st).2 →
  t = now + LEADERBOARD_DURATION ∧
  (∃ sid score status, inp = UpdatePlayer sid k score status) ∧
  (∃ r, rooms st !! k = Some r ∧ Room.status r = PLAYING) ∧
  rooms (handle now inp st).1 !! k = Some (Room.mk ps GAME_OVER) ∧
  Forall (λ q, Player.status q = "DEAD" ∨ Player.status q = "FINISHED") ps ∧
  timers (handle now inp st).1 = timers st ++ [mkTimer t k].
Proof. intros He. by apply handle_event in He. Qed.

Lemma force_game_over_means_all_done_witness :
  let st := state_after (scenario_started ++ [(4, UpdatePlayer "a" "R" 5 "FINISHED")]) in
  let ps := [agent "a" "Agent a" true 5 "FINISHED"; agent "b" "Bob" true 7 "DEAD"] in
  force_game_over "R" ps 10005 ∈ (handle 5 (UpdatePlayer "b" "R" 7 "DEAD") st).2 ∧
  rooms (handle 5 (UpdatePlayer "b" "R" 7 "DEAD") st).1 !! "R" =
    Some (Room.mk ps GAME_OVER).
Proof.
  intros st ps.
  assert (force_game_over "R" ps 10005
            ∈ (handle 5 (UpdatePlayer "b" "R" 7 "DEAD") st).2) as He.
  { vm_compute. apply list_elem_of_further, list_elem_of_here. }
  split; [exact He|].
  destruct (force_game_over_means_all_done 5 (UpdatePlayer "b" "R" 7 "DEAD")
              st "R" ps 10005 He) as (_ & _ & _ & Hr' & _).
  exact Hr'.
Defined.

(** X19: kicked is only ever sent to the id of an entry that stood at
    an index other than 0 in a room of the registry: whether through
    kick_player or through the reset, the entry at index 0 is never the
    one notified. *)
Theorem kicked_was_not_at_index_0 now inp st x :
  kicked x ∈ (handle now inp st).2 →
  ∃ k r j, rooms st !! k = Some r ∧ ids r !! S j = Some x.
Proof. intros He. by apply handle_event in He. Qed.

Lemma kicked_was_not_at_index_0_witness :
  let st := state_after scenario_over in
  kicked "b" ∈ (handle 10005 (TimerFires 0) st).2 ∧
  ∃ k r j, rooms st !! k = Some r ∧ ids r !! S j = Some "b".
Proof.
  intros st.
  assert (kicked "b" ∈ (handle 10005 (TimerFires 0) st).2) as He.
  { vm_compute. apply list_elem_of_here. }
  split; [exact He|].
  exact (kicked_was_not_at_index_0 10005 (TimerFires 0) st "b" He).
Defined.

(** X20: error_msg is only ever the answer to a join_room, addressed to
    its requester, for a room of the registry that is PLAYING or already
    holds REQUIRED_PLAYERS players; it is then the only event and the
    state is unchanged. *)
Theorem error_msg_means_rejected_join now inp st to msg :
  error_msg to msg ∈ (handle now inp st).2 →
  ∃ roomId name room,
    inp = JoinRoom to roomId name ∧ rooms st !! roomId = Some room ∧
    (Room.status room = PLAYING ∨
     (REQUIRED_PLAYERS ≤ length (Room.players room))%nat) ∧
    handle now inp st = (st, [error_msg to msg]).
Proof. intros He. by apply handle_event in He. Qed.

Lemma error_msg_means_rejected_join_witness :
  let st := state_after scenario_joined in
  error_msg "c" "Team is full (Max 2 Agents)."
    ∈ (handle 9 (JoinRoom "c" "R" None) st).2 ∧
  handle 9 (JoinRoom "c" "R" None) st =
    (st, [error_msg "c" "Team is full (Max 2 Agents)."]).
Proof.
  intros st.
  assert (error_msg "c" "Team is full (Max 2 Agents)."
            ∈ (handle 9 (JoinRoom "c" "R" None) st).2) as He.
  { vm_compute. apply list_elem_of_here. }
  split; [exact He|].
  destruct (error_msg_means_rejected_join 9 (JoinRoom "c" "R" None) st "c" _ He)
    as (roomId & name & room & _ & _ & _ & H).
  exact H.
Defined.

(** ** After the reset, and after the captain leaves *)

Lemma reachable_populated st : reachable st → populated st.
Proof.
  induction 1 as [|st now inp _ IH]; [by intros k r ?|].
  by apply handle_populated.
Qed.

(** X21: in a reachable state the reset of a GAME_OVER room never
    deletes it (the branch for an empty player list is dead): the room
    is left in LOBBY with its first player alone, and the next
    join_room for it is accepted, the newcomer taking index 1. *)
Theorem reset_reopens_room now sid name st k r :
  reachable st →
  rooms st !! k = Some r → Room.status r = GAME_OVER →
  ∃ captain,
    head (Room.players r) = Some captain ∧
    rooms (reset_action k st).1 !! k =
      Some (Room.mk [reset_captain captain] LOBBY) ∧
    rooms (join_room now sid k name (reset_action k st).1).1 !! k =
      Some (Room.mk [reset_captain captain; newPlayer sid name] LOBBY).
Proof.
  intros Hst Hr Hs.
  pose proof (reachable_populated st Hst k r Hr) as Hne.
  destruct (reset_action_inv k st) as [[_ Hno]|(room & Hl & _ & Hk)];
    [by destruct (Hno r Hr)|].
  rewrite Hr in Hl. injection Hl as <-.
  destruct (Room.players r) as [|captain others]; [done|].
  exists captain. rewrite Hk. cbn [fst]. split_and!; [done|..].
  - cbn. by rewrite lookup_insert_eq.
  - rewrite join_room_accept; unfold roomOrNew; cbn [rooms with_rooms];
      rewrite lookup_insert_eq; cbn; [|done|unfold REQUIRED_PLAYERS; lia].
    by rewrite lookup_insert_eq.
Qed.

Lemma reset_reopens_room_witness :
  let st := state_after scenario_over in
  let r := Room.mk [agent "a" "Agent a" true 5 "FINISHED";
                    agent "b" "Bob" true 7 "DEAD"] GAME_OVER in
  reachable st ∧ rooms st !! "R" = Some r ∧ Room.status r = GAME_OVER ∧
  rooms (join_room 10010 "c" "R" None (reset_action "R" st).1).1 !! "R" =
    Some (Room.mk [agent "a" "Agent a" false 0 "ALIVE";
                   agent "c" "Agent c" false 0 "ALIVE"] LOBBY).
Proof.
  intros st r.
  assert (reachable st) as Hr by apply reachable_run, reachable_init.
  assert (rooms st !! "R" = Some r) as Hl by (vm_compute; reflexivity).
  assert (Room.status r = GAME_OVER) as Hs by reflexivity.
  split; [exact Hr|]. split; [exact Hl|]. split; [exact Hs|].
  destruct (reset_reopens_room 10010 "c" None st "R" r Hr Hl Hs)
    as (captain & Hc & _ & Hj).
  injection Hc as <-. exact Hj.
Defined.

(** X22: when the connection at index 0 of a room with further players
    disconnects, the room stays in the registry with its status, the
    remaining players move up one index, and the former second player
    is the captain from then on. *)
Theorem captain_succession sid st k r captain next rest :
  rooms st !! k = Some r →
  Room.players r = captain :: next :: rest →
  Player.id captain = sid →
  rooms (disconnect sid st).1 !! k =
    Some (Room.mk (next :: rest) (Room.status r)) ∧
  room_update k (next :: rest) ∈ (disconnect sid st).2 ∧
  ∀ r', rooms (disconnect sid st).1 !! k = Some r' →
        is_captain (Player.id next) r'.
Proof.
  intros Hr Hps Hid.
  assert (find_player sid (Room.players r) = Some (0%nat, captain)) as Hf.
  { rewrite Hps. unfold find_player. cbn. by rewrite decide_True. }
  assert (rooms (disconnect sid st).1 !! k =
          Some (Room.mk (next :: rest) (Room.status r))) as Hr'.
  { rewrite disconnect_rooms, Hr. cbn. unfold leave. rewrite Hf, Hps. done. }
  split_and!; [done | |].
  - apply disconnect_events. exists k, r. split; [done|].
    unfold leave_events. rewrite Hf, Hps. cbn. apply list_elem_of_here.
  - intros r' Hr2. rewrite Hr' in Hr2. injection Hr2 as <-.
    by exists next, rest.
Qed.

Lemma captain_succession_witness :
  let st := state_after scenario_started in
  let r := Room.mk [agent "a" "Agent a" true 0 "ALIVE";
                    agent "b" "Bob" true 0 "ALIVE"] PLAYING in
  rooms st !! "R" = Some r ∧
  rooms (disconnect "a" st).1 !! "R" =
    Some (Room.mk [agent "b" "Bob" true 0 "ALIVE"] PLAYING).
Proof.
  intros st r.
  assert (rooms st !! "R" = Some r) as Hl by (vm_compute; reflexivity).
  split; [exact Hl|].
  exact (proj1 (captain_succession "a" st "R" r _ _ _ Hl eq_refl eq_refl)).
Defined.
